(** * anthropic-ollama-proxy: the translation engine, embedded and verified

    A shallow embedding of [anthropic-ollama-proxy.py]: the markup tool-call
    extractor, the request translator, and the three response translators
    (synchronous, pseudo-stream, true stream).

    Conventions.
    - A Python [str] is a list of Unicode code points ([pystr]); [str]
      embeds an ASCII literal and [strq] does the same after turning
      every apostrophe into a double quote.
    - A Python [dict] whose order is observable (it is serialised) is an
      association list with Python's insertion semantics ([dict_set]).
    - [uuid.uuid4().hex] is drawn from a supply [uuid4_hex : nat -> pystr];
      the handlers thread the number of draws made so far.
    - [json.loads], [json.dumps], [re] and [str] methods belong to the
      interpreter; they are modelled here as far as the proxy uses them.
      Limits of the interpreter (recursion depth, digits of an integer,
      memory) are not modelled.
    - Inputs are typed: what the proxy reads as a string, a list or an
      object is one, and [None] is an absent key. *)

From Stdlib Require Import String Ascii DecimalString.
From Stdlib Require Import List NArith ZArith Bool Arith Lia.
Import ListNotations.

Set Implicit Arguments.
Set Warnings "-register-all,-abstract-large-number".

(** ** Python strings *)

Definition pystr := list N.

Definition str (s : string) : pystr := map N_of_ascii (list_ascii_of_string s).

Definition strq (s : string) : pystr :=
  map (fun c => if N.eqb c 39 then 34%N else c) (str s).

Definition LF : N := 10.

Fixpoint pystr_eqb (a b : pystr) : bool :=
  match a, b with
  | [], [] => true
  | x :: a', y :: b' => N.eqb x y && pystr_eqb a' b'
  | _, _ => false
  end.

(** [bool(s)] for a string. *)
Definition truthy (s : pystr) : bool :=
  match s with [] => false | _ => true end.

(** [s.startswith(p)] *)
Fixpoint startswith (p s : pystr) : bool :=
  match p, s with
  | [], _ => true
  | x :: p', y :: s' => N.eqb x y && startswith p' s'
  | _ :: _, [] => false
  end.

(** [sep.join(parts)] *)
Fixpoint join (sep : pystr) (parts : list pystr) : pystr :=
  match parts with
  | [] => []
  | [p] => p
  | p :: rest => p ++ sep ++ join sep rest
  end.

(** [str.isspace] on one code point; also the regex class [\s]. *)
Definition isspace (c : N) : bool :=
  (((9 <=? c) && (c <=? 13)) || ((28 <=? c) && (c <=? 32))
   || (c =? 133) || (c =? 160) || (c =? 5760)
   || ((8192 <=? c) && (c <=? 8202))
   || (c =? 8232) || (c =? 8233) || (c =? 8239) || (c =? 8287)
   || (c =? 12288))%N.

Fixpoint lstrip (s : pystr) : pystr :=
  match s with
  | c :: s' => if isspace c then lstrip s' else s
  | [] => []
  end.

(** [s.strip()] *)
Definition strip (s : pystr) : pystr := rev (lstrip (rev (lstrip s))).

(** [s.replace(old, '')]: every non-overlapping occurrence of [old], from the
    left, is removed; [skip] counts the characters of an occurrence still to
    be dropped. *)
Fixpoint remove_from (old s : pystr) (skip : nat) : pystr :=
  match s with
  | [] => []
  | c :: s' =>
      match skip with
      | S k => remove_from old s' k
      | O =>
          if startswith old s
          then remove_from old s' (Nat.pred (length old))
          else c :: remove_from old s' 0
      end
  end.

Definition replace_with_empty (old s : pystr) : pystr :=
  match old with
  | [] => s
  | _ => remove_from old s 0
  end.

(** ** JSON values *)

Inductive json : Type :=
| JNull
| JBool (b : bool)
| JInt (z : Z)
| JFloat (lexeme : pystr)
| JString (s : pystr)
| JArray (items : list json)
| JObject (members : list (pystr * json)).

(** [d[k] = v] on an insertion-ordered dict. *)
Fixpoint dict_set {V : Type} (d : list (pystr * V)) (k : pystr) (v : V)
  : list (pystr * V) :=
  match d with
  | [] => [(k, v)]
  | (k', v') :: d' =>
      if pystr_eqb k' k then (k', v) :: d' else (k', v') :: dict_set d' k v
  end.

(** ** [json.dumps(v, ensure_ascii=False)]

    Default separators [', '] and [': ']; strings are escaped as
    [encode_basestring] does.  A float keeps the lexeme it was read from:
    Python's float formatting is not modelled. *)

Definition hex_digit (n : N) : N :=
  (if n <? 10 then 48 + n else 87 + n)%N.

Definition escape_char (c : N) : pystr :=
  (if c =? 34 then [92; 34]
   else if c =? 92 then [92; 92]
   else if c =? 10 then [92; 110]
   else if c =? 13 then [92; 114]
   else if c =? 9 then [92; 116]
   else if c =? 8 then [92; 98]
   else if c =? 12 then [92; 102]
   else if c <? 32 then [92; 117; 48; 48; hex_digit (c / 16); hex_digit (c mod 16)]
   else [c])%N.

Definition encode_basestring (s : pystr) : pystr :=
  [34%N] ++ flat_map escape_char s ++ [34%N].

Fixpoint json_dumps (v : json) : pystr :=
  match v with
  | JNull => str "null"
  | JBool true => str "true"
  | JBool false => str "false"
  | JInt z => str (NilZero.string_of_int (Z.to_int z))
  | JFloat lexeme => lexeme
  | JString s => encode_basestring s
  | JArray items =>
      str "[" ++ join (str ", ") (map json_dumps items) ++ str "]"
  | JObject members =>
      str "{"
      ++ join (str ", ")
           (map (fun kv => encode_basestring (fst kv) ++ str ": " ++ json_dumps (snd kv))
                members)
      ++ str "}"
  end.

(** ** [json.loads(s)]

    The scanner of CPython's [json] module: recursive descent over the
    remaining input.  [None] is [json.JSONDecodeError].  Interpreter limits
    (recursion depth, digits of an integer) are not modelled. *)

Definition is_json_ws (c : N) : bool :=
  ((c =? 32) || (c =? 9) || (c =? 10) || (c =? 13))%N.

Fixpoint skip_ws (s : pystr) : pystr :=
  match s with
  | c :: s' => if is_json_ws c then skip_ws s' else s
  | [] => []
  end.

Definition is_digit (c : N) : bool := ((48 <=? c) && (c <=? 57))%N.

Definition hex_value (c : N) : option N :=
  (if (48 <=? c) && (c <=? 57) then Some (c - 48)
   else if (97 <=? c) && (c <=? 102) then Some (c - 87)
   else if (65 <=? c) && (c <=? 70) then Some (c - 55)
   else None)%N.

Definition hex4 (a b c d : N) : option N :=
  match hex_value a, hex_value b, hex_value c, hex_value d with
  | Some x, Some y, Some z, Some w => Some (((x * 16 + y) * 16 + z) * 16 + w)%N
  | _, _, _, _ => None
  end.

Definition simple_escape (e : N) : option N :=
  (if e =? 34 then Some 34
   else if e =? 92 then Some 92
   else if e =? 47 then Some 47
   else if e =? 98 then Some 8
   else if e =? 102 then Some 12
   else if e =? 110 then Some 10
   else if e =? 114 then Some 13
   else if e =? 116 then Some 9
   else None)%N.

Definition is_high_surrogate (c : N) : bool := ((55296 <=? c) && (c <=? 56319))%N.
Definition is_low_surrogate (c : N) : bool := ((56320 <=? c) && (c <=? 57343))%N.
Definition join_surrogates (hi lo : N) : N :=
  (65536 + ((hi - 55296) * 1024 + (lo - 56320)))%N.

(** [scanstring] in strict mode, called after the opening quote; [acc] is the
    decoded text so far, reversed. *)
Fixpoint scanstring (s : pystr) (acc : pystr) : option (pystr * pystr) :=
  match s with
  | [] => None
  | c :: rest =>
      if (c =? 34)%N then Some (rev acc, rest)
      else if (c =? 92)%N then
        match rest with
        | [] => None
        | e :: rest1 =>
            if (e =? 117)%N then
              match rest1 with
              | h1 :: h2 :: h3 :: h4 :: rest2 =>
                  match hex4 h1 h2 h3 h4 with
                  | None => None
                  | Some u =>
                      match rest2 with
                      | b :: v :: l1 :: l2 :: l3 :: l4 :: rest3 =>
                          if is_high_surrogate u && (b =? 92)%N && (v =? 117)%N then
                            match hex4 l1 l2 l3 l4 with
                            | None => None
                            | Some u2 =>
                                if is_low_surrogate u2
                                then scanstring rest3 (join_surrogates u u2 :: acc)
                                else scanstring rest2 (u :: acc)
                            end
                          else scanstring rest2 (u :: acc)
                      | _ => scanstring rest2 (u :: acc)
                      end
                  end
              | _ => None
              end
            else
              match simple_escape e with
              | Some d => scanstring rest1 (d :: acc)
              | None => None
              end
        end
      else if (c <? 32)%N then None
      else scanstring rest (c :: acc)
  end.

(** Digits of a number: [span is_digit]. *)
Fixpoint take_digits (s : pystr) : pystr * pystr :=
  match s with
  | c :: s' =>
      if is_digit c
      then let '(ds, rest) := take_digits s' in (c :: ds, rest)
      else ([], s)
  | [] => ([], [])
  end.

Definition digits_value (ds : pystr) : Z :=
  fold_left (fun acc c => (acc * 10 + Z.of_N (c - 48))%Z) ds 0%Z.

(** The integer part [0|[1-9][0-9]*]. *)
Definition match_int_part (s : pystr) : option (pystr * pystr) :=
  match s with
  | c :: s' =>
      if (c =? 48)%N then Some ([c], s')
      else if is_digit c
           then let '(ds, rest) := take_digits s' in Some (c :: ds, rest)
           else None
  | [] => None
  end.

(** The optional fraction [\.[0-9]+]. *)
Definition match_frac (s : pystr) : pystr * pystr :=
  match s with
  | dot :: d :: s' =>
      if (dot =? 46)%N && is_digit d
      then let '(ds, rest) := take_digits s' in (dot :: d :: ds, rest)
      else ([], s)
  | _ => ([], s)
  end.

(** The optional exponent [[eE][-+]?[0-9]+]. *)
Definition match_exp (s : pystr) : pystr * pystr :=
  match s with
  | e :: s' =>
      if ((e =? 101) || (e =? 69))%N then
        match s' with
        | sg :: s'' =>
            if ((sg =? 43) || (sg =? 45))%N then
              match take_digits s'' with
              | ([], _) => ([], s)
              | (ds, rest) => (e :: sg :: ds, rest)
              end
            else
              match take_digits s' with
              | ([], _) => ([], s)
              | (ds, rest) => (e :: ds, rest)
              end
        | [] => ([], s)
        end
      else ([], s)
  | [] => ([], s)
  end.

(** [_match_number] after the optional sign: an integer becomes [JInt],
    anything with a fraction or an exponent a [JFloat]. *)
Definition match_unsigned (sign s0 : pystr) : option (json * pystr) :=
  match match_int_part s0 with
  | None => None
  | Some (ip, s1) =>
      let '(fr, s2) := match_frac s1 in
      let '(ex, s3) := match_exp s2 in
      match fr, ex with
      | [], [] =>
          Some (JInt (match sign with [] => digits_value ip | _ => - digits_value ip end)%Z, s3)
      | _, _ => Some (JFloat (sign ++ ip ++ fr ++ ex), s3)
      end
  end.

Definition match_number (s : pystr) : option (json * pystr) :=
  match s with
  | c :: s' => if (c =? 45)%N then match_unsigned [c] s' else match_unsigned [] s
  | [] => None
  end.

(** Result of a scanner that recurses on [fuel]. *)
Inductive scan (A : Type) : Type :=
| Scanned (a : A) (rest : pystr)
| ScanError
| OutOfFuel.
Arguments ScanError {A}.
Arguments OutOfFuel {A}.

(** [d = dict(pairs)] *)
Definition dict_of_pairs {V : Type} (pairs : list (pystr * V)) : list (pystr * V) :=
  fold_left (fun d kv => dict_set d (fst kv) (snd kv)) pairs [].

Fixpoint scan_once (fuel : nat) (s : pystr) {struct fuel} : scan json :=
  match fuel with
  | O => OutOfFuel
  | S f =>
      match s with
      | [] => ScanError
      | c :: rest =>
          if (c =? 34)%N then
            match scanstring rest [] with
            | Some (t, rest') => Scanned (JString t) rest'
            | None => ScanError
            end
          else if (c =? 123)%N then
            match skip_ws rest with
            | c1 :: rest' =>
                if (c1 =? 125)%N then Scanned (JObject []) rest'
                else if (c1 =? 34)%N then object_members f rest' []
                else ScanError
            | [] => ScanError
            end
          else if (c =? 91)%N then
            match skip_ws rest with
            | c1 :: rest' =>
                if (c1 =? 93)%N then Scanned (JArray []) rest'
                else array_items f (c1 :: rest') []
            | [] => array_items f [] []
            end
          else if startswith (str "null") s then Scanned JNull (skipn 4 s)
          else if startswith (str "true") s then Scanned (JBool true) (skipn 4 s)
          else if startswith (str "false") s then Scanned (JBool false) (skipn 5 s)
          else if startswith (str "NaN") s then Scanned (JFloat (str "NaN")) (skipn 3 s)
          else if startswith (str "Infinity") s
               then Scanned (JFloat (str "Infinity")) (skipn 8 s)
          else if startswith (str "-Infinity") s
               then Scanned (JFloat (str "-Infinity")) (skipn 9 s)
          else
            match match_number s with
            | Some (v, rest') => Scanned v rest'
            | None => ScanError
            end
      end
  end

(** [JSONArray] after the first value position is reached; [acc] holds the
    values read so far, reversed. *)
with array_items (fuel : nat) (s : pystr) (acc : list json) {struct fuel} : scan json :=
  match fuel with
  | O => OutOfFuel
  | S f =>
      match scan_once f s with
      | Scanned v rest =>
          match skip_ws rest with
          | c1 :: rest' =>
              if (c1 =? 93)%N then Scanned (JArray (rev (v :: acc))) rest'
              else if (c1 =? 44)%N then array_items f (skip_ws rest') (v :: acc)
              else ScanError
          | [] => ScanError
          end
      | ScanError => ScanError
      | OutOfFuel => OutOfFuel
      end
  end

(** [JSONObject] just after the opening quote of a key; [acc] holds the pairs
    read so far, reversed. *)
with object_members (fuel : nat) (s : pystr) (acc : list (pystr * json))
       {struct fuel} : scan json :=
  match fuel with
  | O => OutOfFuel
  | S f =>
      match scanstring s [] with
      | None => ScanError
      | Some (key, rest) =>
          match skip_ws rest with
          | colon :: rest1 =>
              if (colon =? 58)%N then
                match scan_once f (skip_ws rest1) with
                | Scanned v rest2 =>
                    match skip_ws rest2 with
                    | c2 :: rest3 =>
                        if (c2 =? 125)%N then
                          Scanned (JObject (dict_of_pairs (rev ((key, v) :: acc)))) rest3
                        else if (c2 =? 44)%N then
                          match skip_ws rest3 with
                          | c4 :: rest4 =>
                              if (c4 =? 34)%N
                              then object_members f rest4 ((key, v) :: acc)
                              else ScanError
                          | [] => ScanError
                          end
                        else ScanError
                    | [] => ScanError
                    end
                | ScanError => ScanError
                | OutOfFuel => OutOfFuel
                end
              else ScanError
          | [] => ScanError
          end
      end
  end.

Definition json_loads (s : pystr) : option json :=
  let s0 := skip_ws s in
  match scan_once (2 * length s0 + 1) s0 with
  | Scanned v rest =>
      match skip_ws rest with
      | [] => Some v
      | _ => None
      end
  | _ => None
  end.

(** ** Regular expressions, as far as the proxy's patterns need them

    Python's backtracking semantics: alternatives in order, greedy
    repetition longest first, lazy repetition shortest first.  Repetition is
    only ever applied to a character class, so the matcher is total. *)

Inductive regex : Type :=
| Lit (s : pystr)
| Cls (p : N -> bool)
| Rep1 (p : N -> bool)
| Rep0 (p : N -> bool)
| Lazy0 (p : N -> bool)
| Opt (r : regex)
| Cat (r1 r2 : regex)
| Alt (r1 r2 : regex)
| Grp (n : nat) (r : regex)
| Ref (n : nat).

Declare Scope regex_scope.
Delimit Scope regex_scope with re.
Infix "+++" := Cat (at level 60, right associativity) : regex_scope.

Definition groups := list (nat * pystr).

Fixpoint get_group (n : nat) (g : groups) : option pystr :=
  match g with
  | [] => None
  | (m, t) :: g' => if Nat.eqb m n then Some t else get_group n g'
  end.

Definition hit := (pystr * groups)%type.

Fixpoint greedy (p : N -> bool) (s : pystr) (k : pystr -> option hit) : option hit :=
  match s with
  | c :: s' =>
      if p c then
        match greedy p s' k with
        | Some h => Some h
        | None => k s
        end
      else k s
  | [] => k s
  end.

Fixpoint lazy_ (p : N -> bool) (s : pystr) (k : pystr -> option hit) : option hit :=
  match k s with
  | Some h => Some h
  | None =>
      match s with
      | c :: s' => if p c then lazy_ p s' k else None
      | [] => None
      end
  end.

Fixpoint rmatch (r : regex) (s : pystr) (g : groups)
    (k : pystr -> groups -> option hit) : option hit :=
  match r with
  | Lit l => if startswith l s then k (skipn (length l) s) g else None
  | Cls p =>
      match s with
      | c :: s' => if p c then k s' g else None
      | [] => None
      end
  | Rep1 p =>
      match s with
      | c :: s' => if p c then greedy p s' (fun t => k t g) else None
      | [] => None
      end
  | Rep0 p => greedy p s (fun t => k t g)
  | Lazy0 p => lazy_ p s (fun t => k t g)
  | Opt r' =>
      match rmatch r' s g k with
      | Some h => Some h
      | None => k s g
      end
  | Cat r1 r2 => rmatch r1 s g (fun t g' => rmatch r2 t g' k)
  | Alt r1 r2 =>
      match rmatch r1 s g k with
      | Some h => Some h
      | None => rmatch r2 s g k
      end
  | Grp n r' =>
      rmatch r' s g
        (fun t g' => k t ((n, firstn (length s - length t) s) :: g'))
  | Ref n =>
      match get_group n g with
      | Some l => if startswith l s then k (skipn (length l) s) g else None
      | None => None
      end
  end.

(** [pattern.match(s)] at the head of [s]: the remaining input and the
    groups. *)
Definition match_at (r : regex) (s : pystr) : option hit :=
  rmatch r s [] (fun t g => Some (t, g)).

Record re_match : Type := { group0 : pystr; captured : groups }.

(** [m.group(n)] *)
Definition group (n : nat) (m : re_match) : pystr :=
  match get_group n (captured m) with
  | Some t => t
  | None => []
  end.

(** [pattern.finditer(s)]: leftmost matches, not overlapping; [skip] counts
    the characters of the last match still to be passed.  Every pattern of
    the proxy starts with a literal, so no match is empty. *)
Fixpoint finditer_from (r : regex) (s : pystr) (skip : nat) : list re_match :=
  match s with
  | [] =>
      match match_at r [] with
      | Some (_, g) => [{| group0 := []; captured := g |}]
      | None => []
      end
  | _ :: s' =>
      match skip with
      | S k => finditer_from r s' k
      | O =>
          match match_at r s with
          | Some (t, g) =>
              let n := length s - length t in
              {| group0 := firstn n s; captured := g |}
                :: finditer_from r s' (Nat.pred n)
          | None => finditer_from r s' 0
          end
      end
  end.

Definition finditer (r : regex) (s : pystr) : list re_match := finditer_from r s 0.

(** [re.sub(pattern, '', s)] *)
Fixpoint sub_from (r : regex) (s : pystr) (skip : nat) : pystr :=
  match s with
  | [] => []
  | c :: s' =>
      match skip with
      | S k => sub_from r s' k
      | O =>
          match match_at r s with
          | Some (t, _) =>
              match length s - length t with
              | O => c :: sub_from r s' 0
              | S k => sub_from r s' k
              end
          | None => c :: sub_from r s' 0
          end
      end
  end.

Definition re_sub_empty (r : regex) (s : pystr) : pystr := sub_from r s 0.

(** Character classes of the patterns. *)
Definition any_char (c : N) : bool := true.
Definition not_dquote (c : N) : bool := negb (c =? 34)%N.
Definition not_gt (c : N) : bool := negb (c =? 62)%N.
Definition ascii_alpha_ (c : N) : bool :=
  (((97 <=? c) && (c <=? 122)) || ((65 <=? c) && (c <=? 90)) || (c =? 95))%N.

(** ** Configuration *)

Definition MAX_TOKENS_CAP : Z := 4096.
Definition SYSTEM_PROMPT_MAX_CHARS : nat := 4000.
Definition ALLOWED_TOOLS : option (list pystr) :=
  Some [str "Bash"; str "Read"; str "Write"; str "Edit"; str "Glob"; str "Grep";
        str "WebFetch"; str "WebSearch"; str "NotebookEdit"].

(** [x in names] *)
Definition mem (x : pystr) (names : list pystr) : bool := existsb (pystr_eqb x) names.

(** ** Data model *)

(** A backend tool call: an [id] and, under [function], a [name] and the
    JSON-encoded [arguments]; [None] is an absent key. *)
Record tool_call : Type := {
  tc_id : option pystr;
  tc_name : option pystr;
  tc_arguments : option pystr
}.

(** [d.get(key, default)] *)
Definition get {A : Type} (field : option A) (default : A) : A :=
  match field with
  | Some a => a
  | None => default
  end.

(** ** Anthropic side: requests *)

Record tool : Type := {
  tool_name : option pystr;
  tool_type : option pystr;
  tool_description : option pystr;
  tool_input_schema : option json
}.

Record system_block : Type := {
  sb_type : option pystr;
  sb_text : option pystr
}.

Inductive system_prompt : Type :=
| SystemText (text : pystr)
| SystemBlocks (blocks : list system_block).

(** Content of a [tool_result] block: a string, or a list of sub-blocks, each
    read through its [text]. *)
Inductive result_content : Type :=
| ResultText (text : pystr)
| ResultBlocks (texts : list pystr).

(** A block of an inbound message; a block of any other type is skipped by
    the translator. *)
Inductive request_block : Type :=
| ReqText (text : option pystr)
| ReqThinking
| ReqToolUse (id : option pystr) (name : option pystr) (input : option json)
| ReqToolResult (tool_use_id : option pystr) (content : option result_content)
| ReqOther.

Inductive message_content : Type :=
| ContentText (text : pystr)
| ContentBlocks (blocks : list request_block).

Record message : Type := {
  msg_role : option pystr;
  msg_content : option message_content
}.

Record anthropic_request : Type := {
  req_model : option pystr;
  req_messages : option (list message);
  req_system : option system_prompt;
  req_max_tokens : option Z;
  req_temperature : option json;
  req_stream : option bool;
  req_tools : option (list tool)
}.

(** ** Backend side: requests and responses *)

Inductive oai_message : Type :=
| OaiMessage (role : pystr) (content : pystr)
| OaiAssistantCalls (content : option pystr) (tool_calls : list tool_call)
| OaiToolMessage (tool_call_id : pystr) (content : pystr).

Record oai_tool : Type := {
  fn_name : pystr;
  fn_description : pystr;
  fn_parameters : json
}.

Record oai_request : Type := {
  oai_model : pystr;
  oai_messages : list oai_message;
  oai_max_tokens : Z;
  oai_temperature : json;
  oai_stream : bool;
  oai_tools : option (list oai_tool);
  oai_tool_choice : option pystr
}.

(** One complete backend response: [choices[0].message], its
    [finish_reason], and [usage]. *)
Record oai_response : Type := {
  resp_content : option pystr;
  resp_reasoning : option pystr;
  resp_tool_calls : list tool_call;
  resp_finish_reason : option pystr;
  resp_prompt_tokens : option Z;
  resp_completion_tokens : option Z
}.

(** One line of a streaming backend response, as the stream loop classifies
    it: a line that does not start with [data: ], the terminal marker
    [data: [DONE]], a data line whose JSON does not decode, or a decoded
    increment with its [reasoning] and [content] deltas (empty when
    absent). *)
Inductive stream_line : Type :=
| NotData
| Done
| Undecodable
| Increment (reasoning : pystr) (content : pystr).


(** ** Anthropic side: responses and stream events *)

Inductive content_block : Type :=
| Thinking (thinking : pystr)
| Text (text : pystr)
| ToolUse (id : pystr) (name : pystr) (input : json).

Inductive block_delta : Type :=
| thinking_delta (thinking : pystr)
| text_delta (text : pystr)
| input_json_delta (partial_json : pystr).

Inductive event : Type :=
| message_start (id model : pystr) (input_tokens : Z)
| content_block_start (index : nat) (block : content_block)
| content_block_delta (index : nat) (delta : block_delta)
| content_block_stop (index : nat)
| message_delta (stop_reason : pystr) (output_tokens : Z)
| message_stop.

Record anthropic_response : Type := {
  ar_id : pystr;
  ar_model : pystr;
  ar_content : list content_block;
  ar_stop_reason : pystr;
  ar_input_tokens : Z;
  ar_output_tokens : Z;
  ar_cache_creation_input_tokens : Z;
  ar_cache_read_input_tokens : Z
}.


Section Runtime.

(** The successive values of [uuid.uuid4().hex]. *)
Variable uuid4_hex : nat -> pystr.

(** [str.isalnum] of a code point above ASCII, from the interpreter's Unicode
    database: the regex class [\w] depends on it. *)
Variable unicode_isalnum : N -> bool.

Definition word_char (c : N) : bool :=
  (if c <? 128
   then ascii_alpha_ c || is_digit c
   else unicode_isalnum c)%N.

(** ** Markup tool-call extractor *)

(** [<invoke\s+name='([^']+)'>(.*?)</invoke>], writing ['] for the double
    quote. *)
Definition invoke_pat : regex :=
  (Lit (str "<invoke") +++ Rep1 isspace +++ Lit (strq "name='")
   +++ Grp 1 (Rep1 not_dquote) +++ Lit (strq "'>")
   +++ Grp 2 (Lazy0 any_char) +++ Lit (str "</invoke>"))%re.

(** [<parameter\s+name='([^']+)'>(.*?)</parameter>], writing ['] for the
    double quote. *)
Definition param_pat : regex :=
  (Lit (str "<parameter") +++ Rep1 isspace +++ Lit (strq "name='")
   +++ Grp 1 (Rep1 not_dquote) +++ Lit (strq "'>")
   +++ Grp 2 (Lazy0 any_char) +++ Lit (str "</parameter>"))%re.

(** [<function=([^>]+)>(.*?)</function>] *)
Definition qwen_func_pat : regex :=
  (Lit (str "<function=") +++ Grp 1 (Rep1 not_gt) +++ Lit (str ">")
   +++ Grp 2 (Lazy0 any_char) +++ Lit (str "</function>"))%re.

(** [<parameter=([^>]+)>(.*?)</parameter>] *)
Definition qwen_param_pat : regex :=
  (Lit (str "<parameter=") +++ Grp 1 (Rep1 not_gt) +++ Lit (str ">")
   +++ Grp 2 (Lazy0 any_char) +++ Lit (str "</parameter>"))%re.

(** The alternation of the escaped names,
    ['|'.join(re.escape(t) for t in known_tools)]. *)
Fixpoint names_re (known_tools : list pystr) : regex :=
  match known_tools with
  | [] => Lit []
  | [t] => Lit t
  | t :: rest => Alt (Lit t) (names_re rest)
  end.

(** [<(names)>(.*?)</\1>] *)
Definition simple_pat (known_tools : list pystr) : regex :=
  (Lit (str "<") +++ Grp 1 (names_re known_tools) +++ Lit (str ">")
   +++ Grp 2 (Lazy0 any_char) +++ Lit (str "</") +++ Ref 1 +++ Lit (str ">"))%re.

(** One [<key>value</key>] child: group 1 is a tag name [[a-zA-Z_]\w*],
    group 2 a lazy [.*?], closed by [</\1>]. *)
Definition inner_pat : regex :=
  (Lit (str "<") +++ Grp 1 (Cls ascii_alpha_ +++ Rep0 word_char) +++ Lit (str ">")
   +++ Grp 2 (Lazy0 any_char) +++ Lit (str "</") +++ Ref 1 +++ Lit (str ">"))%re.

(** [</?tag[^>]*>] *)
Definition wrapper_pat (tag : pystr) : regex :=
  (Lit (str "<") +++ Opt (Lit (str "/")) +++ Lit tag +++ Rep0 not_gt +++ Lit (str ">"))%re.

(** The [params] dict filled from the matches of a parameter pattern. *)
Definition collect_params (pat : regex) (key_of : pystr -> pystr) (params_text : pystr)
  : list (pystr * pystr) :=
  fold_left
    (fun params pm => dict_set params (key_of (group 1 pm)) (strip (group 2 pm)))
    (finditer pat params_text) [].

(** The call appended for one match; draws one uuid. *)
Definition salvaged_call (n : nat) (tool_name : pystr) (params : list (pystr * pystr))
  : tool_call :=
  {| tc_id := Some (str "call_" ++ firstn 8 (uuid4_hex n));
     tc_name := Some tool_name;
     tc_arguments :=
       Some (json_dumps (JObject (map (fun kv => (fst kv, JString (snd kv))) params))) |}.

(** Loop state of the extractor: the calls so far, the remaining text, and
    the number of uuids drawn. *)
Definition extraction := (list tool_call * pystr * nat)%type.

Definition invoke_step (acc : extraction) (m : re_match) : extraction :=
  let '(tool_calls, remaining_text, n) := acc in
  let tool_name := group 1 m in
  let params := collect_params param_pat (fun k => k) (group 2 m) in
  (tool_calls ++ [salvaged_call n tool_name params],
   replace_with_empty (group0 m) remaining_text,
   S n).

Definition qwen_step (acc : extraction) (m : re_match) : extraction :=
  let '(tool_calls, remaining_text, n) := acc in
  let tool_name := strip (group 1 m) in
  let params := collect_params qwen_param_pat strip (group 2 m) in
  match params with
  | [] => acc
  | _ =>
      (tool_calls ++ [salvaged_call n tool_name params],
       replace_with_empty (group0 m) remaining_text,
       S n)
  end.

Definition simple_step (acc : extraction) (m : re_match) : extraction :=
  let '(tool_calls, remaining_text, n) := acc in
  let tool_name := group 1 m in
  let params := collect_params inner_pat (fun k => k) (group 2 m) in
  match params with
  | [] => acc
  | _ =>
      (tool_calls ++ [salvaged_call n tool_name params],
       replace_with_empty (group0 m) remaining_text,
       S n)
  end.

Definition strip_wrappers (tags : list pystr) (text : pystr) : pystr :=
  fold_left (fun t tag => re_sub_empty (wrapper_pat tag) t) tags text.

(** [_extract_tool_calls_from_text(text, known_tools)], started after [n]
    uuid draws; returns [(tool_calls, cleaned_text)] and the draws made. *)
Definition _extract_tool_calls_from_text
    (text : pystr) (known_tools : option (list pystr)) (n : nat)
  : list tool_call * pystr * nat :=
  (* Pattern 1 *)
  let '(tool_calls, remaining_text, n) :=
    fold_left invoke_step (finditer invoke_pat text) ([], text, n) in
  let remaining_text :=
    strip_wrappers [str "function_calls"; str "action"] remaining_text in
  match tool_calls with
  | _ :: _ => (tool_calls, strip remaining_text, n)
  | [] =>
      (* Pattern 2 *)
      let '(tool_calls, remaining_text, n) :=
        fold_left qwen_step (finditer qwen_func_pat text) ([], remaining_text, n) in
      let remaining_text := re_sub_empty (Lit (str "</tool_call>")) remaining_text in
      let remaining_text := re_sub_empty (Lit (str "<tool_call>")) remaining_text in
      match tool_calls with
      | _ :: _ => (tool_calls, strip remaining_text, n)
      | [] =>
          (* Pattern 3 *)
          match known_tools with
          | Some (t :: names) =>
              let '(tool_calls, remaining_text, n) :=
                fold_left simple_step (finditer (simple_pat (t :: names)) text)
                          ([], remaining_text, n) in
              let remaining_text :=
                strip_wrappers [str "action"; str "function_calls"] remaining_text in
              (tool_calls, strip remaining_text, n)
          | _ => (tool_calls, strip remaining_text, n)
          end
      end
  end.

(** ** Request translator: the first half of [_handle_messages] *)

(** The allow-list filter on [tools_list]. *)
Definition filter_tools (tools_list : list tool) : list tool :=
  match ALLOWED_TOOLS with
  | Some allowed => filter (fun t => mem (get (tool_name t) []) allowed) tools_list
  | None => tools_list
  end.

Definition tool_names (tools_list : list tool) : list pystr :=
  map (fun t => get (tool_name t) []) tools_list.

(** [bool(system)] *)
Definition system_truthy (system : system_prompt) : bool :=
  match system with
  | SystemText text => truthy text
  | SystemBlocks [] => false
  | SystemBlocks (_ :: _) => true
  end.

Definition is_text_block (b : system_block) : bool :=
  match sb_type b with
  | Some t => pystr_eqb t (str "text")
  | None => false
  end.

(** The concatenated system prompt. *)
Definition concat_system (system : system_prompt) : pystr :=
  match system with
  | SystemBlocks blocks =>
      join [LF] (map (fun b => get (sb_text b) []) (filter is_text_block blocks))
  | SystemText text => text
  end.

Definition truncation_suffix : pystr := LF :: str "...(truncated for local model)".

Definition truncate_system (sys_text : pystr) : pystr :=
  if SYSTEM_PROMPT_MAX_CHARS <? length sys_text
  then firstn SYSTEM_PROMPT_MAX_CHARS sys_text ++ truncation_suffix
  else sys_text.

Definition fc_hint (current_tool_names : list pystr) : pystr :=
  let tool_names_str := join (str ", ") (firstn 15 current_tool_names) in
  [LF; LF] ++ str "[IMPORTANT: FUNCTION CALLING]" ++ [LF]
  ++ str "You have tools available via function calling: " ++ tool_names_str
  ++ str "." ++ [LF]
  ++ str "When you need to perform any action, you MUST use function calls." ++ [LF]
  ++ str "Do NOT write commands as plain text. Do NOT output XML tags." ++ [LF]
  ++ str "Use the function calling mechanism provided by the API." ++ [LF]
  ++ str "Always prefer Bash tool for system commands. Do NOT use Task or AskUserQuestion."
  ++ [LF].

(** The text of the system message forwarded to the backend. *)
Definition forwarded_system (system : system_prompt) (has_tools : bool)
    (current_tool_names : list pystr) : pystr :=
  let sys_text := truncate_system (concat_system system) in
  if has_tools then sys_text ++ fc_hint current_tool_names else sys_text.

(** Accumulators of the loop over the blocks of one message. *)
Record parts : Type := {
  text_parts : list pystr;
  tool_calls_out : list tool_call;
  tool_results : list oai_message
}.

Definition flatten_block (acc : parts * nat) (block : request_block) : parts * nat :=
  let '(p, n) := acc in
  match block with
  | ReqText text =>
      ({| text_parts := text_parts p ++ [get text []];
          tool_calls_out := tool_calls_out p;
          tool_results := tool_results p |}, n)
  | ReqThinking => (p, n)
  | ReqToolUse id name input =>
      (* the default of [block.get] is evaluated whether or not it is used *)
      let fresh := str "call_" ++ firstn 8 (uuid4_hex n) in
      ({| text_parts := text_parts p;
          tool_calls_out :=
            tool_calls_out p
            ++ [{| tc_id := Some (get id fresh);
                   tc_name := Some (get name []);
                   tc_arguments := Some (json_dumps (get input (JObject []))) |}];
          tool_results := tool_results p |}, S n)
  | ReqToolResult tool_use_id content =>
      let result_content :=
        match get content (ResultText []) with
        | ResultBlocks texts => join [LF] texts
        | ResultText text => text
        end in
      ({| text_parts := text_parts p;
          tool_calls_out := tool_calls_out p;
          tool_results :=
            tool_results p ++ [OaiToolMessage (get tool_use_id []) result_content] |}, n)
  | ReqOther => (p, n)
  end.

Definition flatten_message (acc : list oai_message * nat) (msg : message)
  : list oai_message * nat :=
  let '(out, n) := acc in
  let role := get (msg_role msg) (str "user") in
  match get (msg_content msg) (ContentText []) with
  | ContentBlocks blocks =>
      let '(p, n) :=
        fold_left flatten_block blocks
          ({| text_parts := []; tool_calls_out := []; tool_results := [] |}, n) in
      match tool_results p, tool_calls_out p with
      | _ :: _, _ => (out ++ tool_results p, n)
      | [], _ :: _ =>
          (out ++ [OaiAssistantCalls
                     (match text_parts p with
                      | [] => None
                      | _ => Some (join [LF] (text_parts p))
                      end)
                     (tool_calls_out p)], n)
      | [], [] => (out ++ [OaiMessage role (join [LF] (text_parts p))], n)
      end
  | ContentText text => (out ++ [OaiMessage role text], n)
  end.

Definition is_function_tool (t : tool) : bool :=
  let tool_type := get (tool_type t) [] in
  pystr_eqb tool_type (str "custom") || pystr_eqb tool_type [].

Definition to_oai_tool (t : tool) : oai_tool :=
  {| fn_name := get (tool_name t) [];
     fn_description := get (tool_description t) [];
     fn_parameters := get (tool_input_schema t) (JObject []) |}.

(** What the request half of [_handle_messages] leaves behind: the backend
    request, [self._current_tool_names], [original_stream], and the uuids
    drawn. *)
Record translated : Type := {
  oai_req : oai_request;
  current_tool_names : list pystr;
  original_stream : bool;
  draws : nat
}.

Definition translate_request (req : anthropic_request) (n : nat) : translated :=
  let model := get (req_model req) (str "qwen3-coder:30b") in
  let messages := get (req_messages req) [] in
  let max_tokens := Z.min (get (req_max_tokens req) 4096%Z) MAX_TOKENS_CAP in
  let temperature := get (req_temperature req) (JFloat (str "0.7")) in
  let stream := get (req_stream req) false in
  let tools_list := filter_tools (get (req_tools req) []) in
  let has_tools := match tools_list with [] => false | _ => true end in
  let names := tool_names tools_list in
  let stream' := if has_tools && stream then false else stream in
  let system_messages :=
    match req_system req with
    | Some system =>
        if system_truthy system
        then [OaiMessage (str "system") (forwarded_system system has_tools names)]
        else []
    | None => []
    end in
  let '(oai_msgs, n) := fold_left flatten_message messages (system_messages, n) in
  let oai_tools_ :=
    match req_tools req with
    | Some _ => map to_oai_tool (filter is_function_tool tools_list)
    | None => []
    end in
  {| oai_req :=
       {| oai_model := model;
          oai_messages := oai_msgs;
          oai_max_tokens := max_tokens;
          oai_temperature := temperature;
          oai_stream := stream';
          oai_tools := match oai_tools_ with [] => None | _ => Some oai_tools_ end;
          oai_tool_choice := match oai_tools_ with [] => None | _ => Some (str "auto") end |};
     current_tool_names := names;
     original_stream := stream;
     draws := n |}.

(** ** Response translators *)

(** [_process_ollama_response]: content, reasoning, tool calls and finish
    reason, after the extractor has had its chance. *)
Definition _process_ollama_response
    (current_tool_names : list pystr) (oai_resp : oai_response) (n : nat)
  : pystr * pystr * list tool_call * pystr * nat :=
  let content_text := get (resp_content oai_resp) [] in
  let reasoning_text := get (resp_reasoning oai_resp) [] in
  let tool_calls := resp_tool_calls oai_resp in
  let finish_reason := get (resp_finish_reason oai_resp) (str "end_turn") in
  match tool_calls, content_text, current_tool_names with
  | [], _ :: _, _ :: _ =>
      let '(extracted, cleaned, n') :=
        _extract_tool_calls_from_text content_text (Some current_tool_names) n in
      match extracted with
      | _ :: _ => (cleaned, reasoning_text, extracted, str "tool_calls", n')
      | [] => (content_text, reasoning_text, tool_calls, finish_reason, n')
      end
  | _, _, _ => (content_text, reasoning_text, tool_calls, finish_reason, n)
  end.

(** The input of a tool call: its arguments parsed from JSON, or the raw
    string under [raw] when they do not decode. *)
Definition tool_input_of (tc : tool_call) : json :=
  match json_loads (get (tc_arguments tc) (str "{}")) with
  | Some v => v
  | None => JObject [(str "raw", JString (get (tc_arguments tc) []))]
  end.

Definition fresh_toolu (n : nat) : pystr := str "toolu_" ++ firstn 24 (uuid4_hex n).
Definition fresh_msg (n : nat) : pystr := str "msg_" ++ firstn 24 (uuid4_hex n).

(** The [tool_use] block of the synchronous path; keeps an id that already
    starts with [toolu_]. *)
Definition sync_tool_block (acc : list content_block * nat) (tc : tool_call)
  : list content_block * nat :=
  let '(content_blocks, n) := acc in
  let tool_input := tool_input_of tc in
  let raw_id := get (tc_id tc) [] in
  if startswith (str "toolu_") raw_id
  then (content_blocks ++ [ToolUse raw_id (get (tc_name tc) []) tool_input], n)
  else (content_blocks ++ [ToolUse (fresh_toolu n) (get (tc_name tc) []) tool_input], S n).

Definition map_stop_reason (finish_reason : pystr) : pystr :=
  if pystr_eqb finish_reason (str "tool_calls") then str "tool_use"
  else if pystr_eqb finish_reason (str "stop") then str "end_turn"
  else finish_reason.

(** [x or y] on strings. *)
Definition or_else (x y : pystr) : pystr := if truthy x then x else y.

(** [_handle_sync], given the decoded backend response. *)
Definition _handle_sync (current_tool_names : list pystr) (oai_resp : oai_response)
    (model : pystr) (n : nat) : anthropic_response :=
  let '(content_text, reasoning_text, tool_calls, finish_reason, n) :=
    _process_ollama_response current_tool_names oai_resp n in
  let content_blocks :=
    (if truthy reasoning_text then [Thinking reasoning_text] else [])
    ++ (if truthy content_text then [Text content_text] else []) in
  let '(content_blocks, n) := fold_left sync_tool_block tool_calls (content_blocks, n) in
  let content_blocks :=
    match content_blocks with
    | [] => [Text (or_else reasoning_text [])]
    | _ => content_blocks
    end in
  {| ar_id := fresh_msg n;
     ar_model := model;
     ar_content := content_blocks;
     ar_stop_reason := map_stop_reason finish_reason;
     ar_input_tokens := get (resp_prompt_tokens oai_resp) 0%Z;
     ar_output_tokens := get (resp_completion_tokens oai_resp) 0%Z;
     ar_cache_creation_input_tokens := 0;
     ar_cache_read_input_tokens := 0 |}.

(** The three events of one block of the pseudo-stream. *)
Definition burst (block_index : nat) (block : content_block) (delta : block_delta)
  : list event :=
  [content_block_start block_index block;
   content_block_delta block_index delta;
   content_block_stop block_index].

(** Loop state of the pseudo-stream over the tool calls: events so far,
    [block_index], uuids drawn. *)
Definition sse_tool_block (acc : list event * nat * nat) (tc : tool_call)
  : list event * nat * nat :=
  let '(events, block_index, n) := acc in
  let tool_input := tool_input_of tc in
  let tool_use_id := fresh_toolu n in
  (events
   ++ burst block_index
        (ToolUse tool_use_id (get (tc_name tc) []) (JObject []))
        (input_json_delta (json_dumps tool_input)),
   S block_index, S n).

(** [_handle_sync_as_sse], given the decoded backend response. *)
Definition _handle_sync_as_sse (current_tool_names : list pystr)
    (oai_resp : oai_response) (model : pystr) (n : nat) : list event :=
  let '(content_text, reasoning_text, tool_calls, finish_reason, n) :=
    _process_ollama_response current_tool_names oai_resp n in
  let msg_id := fresh_msg n in
  let n := S n in
  let stop_reason := map_stop_reason finish_reason in
  let input_tokens := get (resp_prompt_tokens oai_resp) 0%Z in
  let output_tokens := get (resp_completion_tokens oai_resp) 0%Z in
  let block_index := 0 in
  let '(events, block_index) :=
    if truthy reasoning_text
    then (burst block_index (Thinking []) (thinking_delta reasoning_text), S block_index)
    else ([], block_index) in
  let '(events, block_index) :=
    if truthy content_text
    then (events ++ burst block_index (Text []) (text_delta content_text), S block_index)
    else (events, block_index) in
  let '(events, block_index, n) :=
    fold_left sse_tool_block tool_calls (events, block_index, n) in
  let events :=
    match block_index with
    | O => events ++ burst 0 (Text []) (text_delta (str "(empty response)"))
    | S _ => events
    end in
  [message_start msg_id model input_tokens]
  ++ events
  ++ [message_delta stop_reason output_tokens; message_stop].

(** State of the true-stream loop. *)
Record stream_state : Type := {
  total_output_tokens : Z;
  in_reasoning : bool;
  reasoning_started : bool;
  content_started : bool;
  content_index : nat
}.

Definition initial_stream_state : stream_state :=
  {| total_output_tokens := 0;
     in_reasoning := false;
     reasoning_started := false;
     content_started := false;
     content_index := 0 |}.

(** [if reasoning: ...] *)
Definition on_reasoning (st : stream_state) (reasoning : pystr)
  : stream_state * list event :=
  if truthy reasoning then
    let opening :=
      if negb (reasoning_started st)
      then [content_block_start (content_index st) (Thinking [])]
      else [] in
    ({| total_output_tokens := total_output_tokens st + 1;
        in_reasoning := if negb (reasoning_started st) then true else in_reasoning st;
        reasoning_started := true;
        content_started := content_started st;
        content_index := content_index st |},
     opening ++ [content_block_delta (content_index st) (thinking_delta reasoning)])
  else (st, []).

(** [if text: ...] *)
Definition on_text (st : stream_state) (text : pystr) : stream_state * list event :=
  if truthy text then
    let closing :=
      if in_reasoning st then [content_block_stop (content_index st)] else [] in
    let index := if in_reasoning st then S (content_index st) else content_index st in
    let opening :=
      if negb (content_started st)
      then [content_block_start index (Text [])]
      else [] in
    ({| total_output_tokens := total_output_tokens st + 1;
        in_reasoning := false;
        reasoning_started := reasoning_started st;
        content_started := true;
        content_index := index |},
     closing ++ opening ++ [content_block_delta index (text_delta text)])
  else (st, []).

Definition on_increment (st : stream_state) (reasoning text : pystr)
  : stream_state * list event :=
  let '(st1, out1) := on_reasoning st reasoning in
  let '(st2, out2) := on_text st1 text in
  (st2, out1 ++ out2).

(** The loop over the lines of the backend stream. *)
Fixpoint stream_loop (lines : list stream_line) (st : stream_state)
  : stream_state * list event :=
  match lines with
  | [] => (st, [])
  | NotData :: rest => stream_loop rest st
  | Undecodable :: rest => stream_loop rest st
  | Done :: _ => (st, [])
  | Increment reasoning text :: rest =>
      let '(st1, out1) := on_increment st reasoning text in
      let '(st2, out2) := stream_loop rest st1 in
      (st2, out1 ++ out2)
  end.

(** What follows the loop. *)
Definition stream_epilogue (st : stream_state) : list event :=
  let closing :=
    if in_reasoning st then [content_block_stop (content_index st)] else [] in
  let index := if in_reasoning st then S (content_index st) else content_index st in
  let fallback :=
    if negb (content_started st) then
      (if reasoning_started st then [content_block_start index (Text [])] else [])
      ++ [content_block_delta index (text_delta (str "(thinking limit reached)"))]
    else [] in
  closing ++ fallback
  ++ [content_block_stop index;
      message_delta (str "end_turn") (total_output_tokens st);
      message_stop].

(** [_handle_stream], given the lines of the backend stream. *)
Definition _handle_stream (lines : list stream_line) (model : pystr) (n : nat)
  : list event :=
  let msg_id := fresh_msg n in
  let '(st, out) := stream_loop lines initial_stream_state in
  [message_start msg_id model 0] ++ out ++ stream_epilogue st.

(** ** [_handle_messages]

    The backend is [urlopen].  A connection failure is answered with 502.  A
    body that is not a JSON document where one is expected makes
    [json.loads] raise, which is answered with 500; a JSON document where a
    stream is expected has no data line. *)


(** ** The block-index invariant of an event stream *)

(** State of the checker: the least index a new block may take, and the
    index of the open block. *)
Definition block_cursor := (nat * option nat)%type.

Definition check_event (c : option block_cursor) (e : event) : option block_cursor :=
  match c with
  | None => None
  | Some (next, open) =>
      match e, open with
      | content_block_start i _, None =>
          if next <=? i then Some (S i, Some i) else None
      | content_block_start _ _, Some _ => None
      | content_block_delta i _, Some j =>
          if i =? j then Some (next, open) else None
      | content_block_delta _ _, None => None
      | content_block_stop i, Some j =>
          if i =? j then Some (next, None) else None
      | content_block_stop _, None => None
      | _, _ => Some (next, open)
      end
  end.

Definition check_events (evs : list event) (c : option block_cursor) : option block_cursor :=
  fold_left check_event evs c.

Definition all_closed (c : option block_cursor) : bool :=
  match c with
  | Some (_, None) => true
  | _ => false
  end.

(** Indices increase; every index gets one start, then only its own deltas,
    then one stop, before a higher index starts. *)
Definition block_invariant (evs : list event) : bool :=
  all_closed (check_events evs (Some (0, None))).

(** The same, said on the sequence itself. *)
Definition is_block_event (e : event) : bool :=
  match e with
  | content_block_start _ _ | content_block_delta _ _ | content_block_stop _ => true
  | _ => false
  end.

Inductive one_block (i : nat) : list event -> Prop :=
| one_block_intro : forall block deltas,
    one_block i
      (content_block_start i block
         :: map (content_block_delta i) deltas ++ [content_block_stop i]).

Inductive block_sequence : nat -> list event -> Prop :=
| block_sequence_nil : forall next, block_sequence next []
| block_sequence_cons : forall next i blk rest,
    next <= i -> one_block i blk -> block_sequence (S i) rest ->
    block_sequence next (blk ++ rest).

(** [bursts k l]: one start, one delta, one stop per element of [l], with
    indices [k], [k+1], ... *)
Fixpoint bursts (k : nat) (l : list (content_block * block_delta)) : list event :=
  match l with
  | [] => []
  | (b, d) :: l' => burst k b d ++ bursts (S k) l'
  end.


(** ** What a client assembles from a stream

    Modelled from the Anthropic streaming protocol, not from the proxy: a
    start opens a block, a text or thinking delta is appended to it, the
    partial JSON of a tool call is accumulated and decoded at the stop. *)

Definition apply_delta (open : content_block * pystr) (d : block_delta)
  : content_block * pystr :=
  match open, d with
  | (Text t, pj), text_delta t' => (Text (t ++ t'), pj)
  | (Thinking t, pj), thinking_delta t' => (Thinking (t ++ t'), pj)
  | (b, pj), input_json_delta p => (b, pj ++ p)
  | _, _ => open
  end.

Definition close_block (open : content_block * pystr) : content_block :=
  match open with
  | (ToolUse id name input, pj) =>
      match pj with
      | [] => ToolUse id name input
      | _ => ToolUse id name (match json_loads pj with Some v => v | None => input end)
      end
  | (b, _) => b
  end.

Fixpoint assemble (evs : list event) (open : option (content_block * pystr))
  : list content_block :=
  match evs with
  | [] => []
  | content_block_start _ b :: rest => assemble rest (Some (b, []))
  | content_block_delta _ d :: rest =>
      assemble rest (option_map (fun o => apply_delta o d) open)
  | content_block_stop _ :: rest =>
      match open with
      | Some o => close_block o :: assemble rest None
      | None => assemble rest None
      end
  | _ :: rest => assemble rest open
  end.

Definition received_blocks (evs : list event) : list content_block := assemble evs None.

(** The increments the stream loop acts on: those before the terminal
    marker. *)
Fixpoint increments (lines : list stream_line) : list (pystr * pystr) :=
  match lines with
  | [] => []
  | NotData :: rest => increments rest
  | Undecodable :: rest => increments rest
  | Done :: _ => []
  | Increment reasoning text :: rest => (reasoning, text) :: increments rest
  end.

Definition no_reasoning (inc : pystr * pystr) : bool := negb (truthy (fst inc)).

(** The streams the true-stream translator renders well: some delta is not
    empty, and if the first such delta is a text delta, no reasoning delta
    follows it. *)
Fixpoint orderly (incs : list (pystr * pystr)) : bool :=
  match incs with
  | [] => false
  | (reasoning, text) :: rest =>
      if truthy reasoning then true
      else if truthy text then forallb no_reasoning rest
      else orderly rest
  end.

(** The events of the loop from state [st] on, followed by the epilogue. *)
Definition run_stream (lines : list stream_line) (st : stream_state) : list event :=
  let '(st', out) := stream_loop lines st in out ++ stream_epilogue st'.

(** ** Notions used by the properties *)

(** The blocks of the pseudo-stream for the tool calls, with the delta each
    one carries; the ids are drawn from [n] on. *)
Fixpoint sse_tool_items (tool_calls : list tool_call) (n : nat)
  : list (content_block * block_delta) :=
  match tool_calls with
  | [] => []
  | tc :: rest =>
      (ToolUse (fresh_toolu n) (get (tc_name tc) []) (JObject []),
       input_json_delta (json_dumps (tool_input_of tc)))
        :: sse_tool_items rest (S n)
  end.

(** All the blocks of the pseudo-stream. *)
Definition sse_items (reasoning_text content_text : pystr) (tool_calls : list tool_call)
    (n : nat) : list (content_block * block_delta) :=
  match
    (if truthy reasoning_text then [(Thinking [], thinking_delta reasoning_text)] else [])
    ++ (if truthy content_text then [(Text [], text_delta content_text)] else [])
    ++ sse_tool_items tool_calls n
  with
  | [] => [(Text [], text_delta (str "(empty response)"))]
  | l => l
  end.

Definition has_tools (req : anthropic_request) : bool :=
  match filter_tools (get (req_tools req) []) with
  | [] => false
  | _ => true
  end.

(** The tool calls the translators render, and the uuids drawn before they
    do. *)
Definition processed_calls (names : list pystr) (oai_resp : oai_response) (n : nat)
  : list tool_call :=
  let '(_, _, tool_calls, _, _) := _process_ollama_response names oai_resp n in
  tool_calls.


Definition is_tool_use (b : content_block) : bool :=
  match b with
  | ToolUse _ _ _ => true
  | _ => false
  end.


(** The block of the synchronous path for one call: the backend id if it
    starts with [toolu_], a generated id otherwise. *)
Definition kept_or_fresh (tc : tool_call) (b : content_block) : Prop :=
  exists id,
    b = ToolUse id (get (tc_name tc) []) (tool_input_of tc)
    /\ startswith (str "toolu_") id = true
    /\ if startswith (str "toolu_") (get (tc_id tc) [])
       then id = get (tc_id tc) []
       else exists k, id = fresh_toolu k.


(** A scan that ended, leaving less input than it was given. *)
Definition scan_ok (r : scan json) (s : pystr) : Prop :=
  match r with
  | Scanned _ rest => length rest < length s
  | ScanError => True
  | OutOfFuel => False
  end.

(** ** [_handle_count_tokens] *)

(** The tokens counted for one block of a message: a quarter of the length
    of a text block, rounded down; nothing for any other block. *)
Definition block_tokens (block : request_block) : nat :=
  match block with
  | ReqText text => length (get text []) / 4
  | _ => 0
  end.

Definition message_tokens (total : nat) (msg : message) : nat :=
  match get (msg_content msg) (ContentText []) with
  | ContentBlocks blocks => fold_left (fun t block => t + block_tokens block) blocks total
  | ContentText text => total + length text / 4
  end.

(** The system prompt is counted block by block, whatever the type of the
    block. *)
Definition system_tokens (total : nat) (system : option system_prompt) : nat :=
  match system with
  | Some system =>
      if system_truthy system then
        match system with
        | SystemBlocks blocks =>
            fold_left (fun t b => t + length (get (sb_text b) []) / 4) blocks total
        | SystemText text => total + length text / 4
        end
      else total
  | None => total
  end.

(** [_handle_count_tokens]: the [input_tokens] of the answer. *)
Definition _handle_count_tokens (req : anthropic_request) : nat :=
  let total := fold_left message_tokens (get (req_messages req) []) 0 in
  system_tokens total (req_system req).

(** ** [_send_sse]: the wire format of an event *)






(** ** Further notions used by the properties *)

(** The text a stream carries in its text deltas, and in its thinking
    deltas. *)
Definition streamed_text (evs : list event) : pystr :=
  flat_map (fun e =>
              match e with
              | content_block_delta _ (text_delta text) => text
              | _ => []
              end) evs.

Definition streamed_thinking (evs : list event) : pystr :=
  flat_map (fun e =>
              match e with
              | content_block_delta _ (thinking_delta thinking) => thinking
              | _ => []
              end) evs.

(** The kind of a block, with the tool name of a tool call. *)
Inductive block_shape : Type :=
| ThinkingShape
| TextShape
| ToolShape (name : pystr).

Definition shape_of (b : content_block) : block_shape :=
  match b with
  | Thinking _ => ThinkingShape
  | Text _ => TextShape
  | ToolUse _ name _ => ToolShape name
  end.

(** The shapes of the blocks a stream starts, in order. *)
Definition started_shapes (evs : list event) : list block_shape :=
  flat_map (fun e =>
              match e with
              | content_block_start _ b => [shape_of b]
              | _ => []
              end) evs.


(** An event that belongs to a tool call. *)
Definition is_tool_event (e : event) : bool :=
  match e with
  | content_block_start _ (ToolUse _ _ _) => true
  | content_block_delta _ (input_json_delta _) => true
  | _ => false
  end.

Definition count_delta (k : Z) (inc : pystr * pystr) : Z :=
  (k + (if truthy (fst inc) then 1 else 0) + (if truthy (snd inc) then 1 else 0))%Z.



(** The shapes of the blocks both response translators render: thinking,
    text, one per tool call, or a lone text block when there is none. *)
Definition rendered_shapes (names : list pystr) (oai_resp : oai_response) (n : nat)
  : list block_shape :=
  let '(content_text, reasoning_text, tool_calls, _, _) :=
    _process_ollama_response names oai_resp n in
  match
    (if truthy reasoning_text then [ThinkingShape] else [])
    ++ (if truthy content_text then [TextShape] else [])
    ++ map (fun tc => ToolShape (get (tc_name tc) [])) tool_calls
  with
  | [] => [TextShape]
  | l => l
  end.

(** A pattern that can only match at a [<]. *)
Definition starts_with_lt (r : regex) : bool :=
  match r with
  | Lit (c :: _) => (c =? 60)%N
  | Cat (Lit (c :: _)) _ => (c =? 60)%N
  | _ => false
  end.

(** The id of the call salvaged at the [k]-th uuid draw. *)
Definition call_id (k : nat) : option pystr := Some (str "call_" ++ firstn 8 (uuid4_hex k)).

(** The calls of an extraction took one uuid draw each, from [n0] on, and
    have a name and arguments. *)
Definition salvage_ok (n0 : nat) (acc : extraction) : Prop :=
  let '(calls, _, n) := acc in
  n = n0 + length calls
  /\ map tc_id calls = map call_id (seq n0 (length calls))
  /\ Forall (fun c => tc_name c <> None /\ tc_arguments c <> None) calls.

(** A text that does not start with whitespace. *)
Definition clean_head (s : pystr) : bool :=
  match s with
  | [] => true
  | c :: _ => negb (isspace c)
  end.

(** The [params] dict of a salvaged call as a JSON object of strings. *)
Definition params_json (params : list (pystr * pystr)) : json :=
  JObject (map (fun kv => (fst kv, JString (snd kv))) params).

(** The text of the members of a dumped object of strings, read from just
    after the opening quote of the first key [k]. *)
Fixpoint members_tail (k v : pystr) (more : list (pystr * pystr)) (rest : pystr) : pystr :=
  flat_map escape_char k
  ++ 34%N :: 58%N :: 32%N :: 34%N
  :: flat_map escape_char v
  ++ 34%N
  :: match more with
     | [] => 125%N :: rest
     | (k', v') :: more' => 44%N :: 32%N :: 34%N :: members_tail k' v' more' rest
     end.

(** A call whose arguments are the dump of a dict of strings. *)
Definition dumped_params (c : tool_call) : Prop :=
  exists params,
    NoDup (map fst params)
    /\ tc_arguments c = Some (json_dumps (params_json params)).

(** The text a block of a message contributes, the tool message it
    becomes, and the name of the call it carries. *)
Definition block_texts (b : request_block) : list pystr :=
  match b with
  | ReqText text => [get text []]
  | _ => []
  end.

Definition block_results (b : request_block) : list oai_message :=
  match b with
  | ReqToolResult tool_use_id content =>
      [OaiToolMessage (get tool_use_id [])
         match get content (ResultText []) with
         | ResultBlocks texts => join [LF] texts
         | ResultText text => text
         end]
  | _ => []
  end.

Definition block_use_names (b : request_block) : list (option pystr) :=
  match b with
  | ReqToolUse _ name _ => [Some (get name [])]
  | _ => []
  end.

(** The texts [_handle_count_tokens] measures: the text blocks and string
    contents of the messages, then the system prompt, block by block. *)
Definition message_texts (msg : message) : list pystr :=
  match get (msg_content msg) (ContentText []) with
  | ContentBlocks blocks => flat_map block_texts blocks
  | ContentText text => [text]
  end.

Definition system_texts (system : option system_prompt) : list pystr :=
  match system with
  | Some (SystemText text) => if truthy text then [text] else []
  | Some (SystemBlocks blocks) => map (fun b => get (sb_text b) []) blocks
  | None => []
  end.

Definition counted_texts (req : anthropic_request) : list pystr :=
  flat_map message_texts (get (req_messages req) []) ++ system_texts (req_system req).


(** * Properties *)

(** ** The checker *)

Lemma check_events_app : forall a b c,
  check_events (a ++ b) c = check_events b (check_events a c).
Proof. intros a b c. unfold check_events. apply fold_left_app. Qed.

Lemma check_events_dead : forall evs, check_events evs None = None.
Proof. induction evs as [|e evs IH]; simpl; auto. Qed.

Lemma check_events_skip : forall evs c,
  check_events (filter is_block_event evs) c = check_events evs c.
Proof.
  induction evs as [|e evs IH]; intros c; simpl; [reflexivity|].
  destruct e; simpl; rewrite IH; try reflexivity;
    destruct c as [[next [j|]]|]; reflexivity.
Qed.

Lemma check_deltas : forall i deltas next,
  check_events (map (content_block_delta i) deltas) (Some (next, Some i))
  = Some (next, Some i).
Proof.
  induction deltas as [|d ds IH]; intros next; simpl; [reflexivity|].
  rewrite Nat.eqb_refl. apply IH.
Qed.

Lemma block_sequence_checks : forall next evs,
  block_sequence next evs ->
  exists next', check_events evs (Some (next, None)) = Some (next', None).
Proof.
  intros next evs H. induction H as [next|next i blk rest Hle Hblk _ [next' IH]].
  - exists next. reflexivity.
  - destruct Hblk as [block deltas].
    exists next'. rewrite check_events_app. simpl.
    apply Nat.leb_le in Hle. rewrite Hle.
    change (fold_left check_event ?l ?c) with (check_events l c).
    rewrite check_events_app, check_deltas. simpl. rewrite Nat.eqb_refl. exact IH.
Qed.

Lemma checks_block_sequence : forall evs,
  (forall next next',
      check_events evs (Some (next, None)) = Some (next', None) ->
      block_sequence next (filter is_block_event evs))
  /\ (forall next j next',
      check_events evs (Some (next, Some j)) = Some (next', None) ->
      exists deltas rest,
        filter is_block_event evs
        = map (content_block_delta j) deltas ++ content_block_stop j :: rest
        /\ block_sequence next rest).
Proof.
  induction evs as [|e evs [IHc IHo]]; split.
  - intros. constructor.
  - simpl. intros next j next' H. discriminate.
  - intros next next' H. destruct e; simpl in *; try (eapply IHc; eassumption).
    + destruct (next <=? index) eqn:Hle.
      * destruct (IHo _ _ _ H) as (deltas & rest & Heq & Hseq).
        rewrite Heq.
        replace (content_block_start index block
                  :: map (content_block_delta index) deltas
                  ++ content_block_stop index :: rest)
          with ((content_block_start index block
                  :: map (content_block_delta index) deltas
                  ++ [content_block_stop index]) ++ rest)
          by (simpl; rewrite <- app_assoc; reflexivity).
        econstructor; [apply Nat.leb_le; exact Hle | constructor | exact Hseq].
      * change (check_events evs None = Some (next', None)) in H.
        rewrite check_events_dead in H. discriminate.
    + change (check_events evs None = Some (next', None)) in H.
      rewrite check_events_dead in H. discriminate.
    + change (check_events evs None = Some (next', None)) in H.
      rewrite check_events_dead in H. discriminate.
  - intros next j next' H. destruct e; simpl in *; try (eapply IHo; eassumption).
    + change (check_events evs None = Some (next', None)) in H.
      rewrite check_events_dead in H. discriminate.
    + destruct (index =? j) eqn:Hij.
      * apply Nat.eqb_eq in Hij. subst index.
        destruct (IHo _ _ _ H) as (deltas & rest & Heq & Hseq).
        exists (delta :: deltas), rest. rewrite Heq. split; [reflexivity | exact Hseq].
      * change (check_events evs None = Some (next', None)) in H.
        rewrite check_events_dead in H. discriminate.
    + destruct (index =? j) eqn:Hij.
      * apply Nat.eqb_eq in Hij. subst index.
        exists [], (filter is_block_event evs). split; [reflexivity|].
        eapply IHc; eassumption.
      * change (check_events evs None = Some (next', None)) in H.
        rewrite check_events_dead in H. discriminate.
Qed.

(** The checker decides the invariant as said on the sequence. *)
Lemma block_invariant_spec : forall evs,
  block_invariant evs = true <-> block_sequence 0 (filter is_block_event evs).
Proof.
  intros evs. unfold block_invariant. split.
  - intros H.
    destruct (check_events evs (Some (0, None))) as [[next' [j|]]|] eqn:E;
      try discriminate.
    eapply (proj1 (checks_block_sequence evs)); eassumption.
  - intros H. apply block_sequence_checks in H. destruct H as [next' H].
    rewrite check_events_skip in H. rewrite H. reflexivity.
Qed.

(** ** The true-stream translator *)

(** Simplification that leaves the comparisons of indices folded, and the
    replay of the checker over events that are known. *)
Ltac evs_simpl := cbn -[Nat.leb Nat.eqb Z.add].

Ltac replay :=
  evs_simpl;
  repeat (first [ rewrite Nat.eqb_refl
                | rewrite Nat.leb_refl
                | match goal with
                  | H : (_ <=? _) = true |- _ => rewrite H
                  end ];
          evs_simpl);
  change (fold_left check_event ?l ?c) with (check_events l c);
  rewrite ?check_events_dead.

Lemma run_stream_nil : forall st, run_stream [] st = stream_epilogue st.
Proof. reflexivity. Qed.

Lemma run_stream_done : forall rest st, run_stream (Done :: rest) st = stream_epilogue st.
Proof. reflexivity. Qed.

Lemma run_stream_not_data : forall rest st,
  run_stream (NotData :: rest) st = run_stream rest st.
Proof. reflexivity. Qed.

Lemma run_stream_undecodable : forall rest st,
  run_stream (Undecodable :: rest) st = run_stream rest st.
Proof. reflexivity. Qed.

Lemma run_stream_increment : forall reasoning text rest st,
  run_stream (Increment reasoning text :: rest) st
  = snd (on_reasoning st reasoning)
    ++ snd (on_text (fst (on_reasoning st reasoning)) text)
    ++ run_stream rest (fst (on_text (fst (on_reasoning st reasoning)) text)).
Proof.
  intros reasoning text rest st. unfold run_stream. simpl. unfold on_increment.
  destruct (on_reasoning st reasoning) as [st1 out1]. simpl.
  destruct (on_text st1 text) as [st2 out2]. simpl.
  destruct (stream_loop rest st2) as [st3 out3].
  rewrite <- !app_assoc. reflexivity.
Qed.

Lemma _handle_stream_run : forall lines model n,
  _handle_stream lines model n
  = message_start (fresh_msg n) model 0 :: run_stream lines initial_stream_state.
Proof.
  intros lines model n. unfold _handle_stream, run_stream.
  destruct (stream_loop lines initial_stream_state) as [st out]. reflexivity.
Qed.

(** A text block is open and reasoning has been seen: whatever follows is
    rendered as deltas of that block. *)
Lemma stream_text_after_reasoning : forall lines st next,
  content_started st = true -> reasoning_started st = true -> in_reasoning st = false ->
  all_closed (check_events (run_stream lines st) (Some (next, Some (content_index st))))
  = true.
Proof.
  induction lines as [|l lines IH]; intros st next Hc Hr Hi.
  - rewrite run_stream_nil. unfold stream_epilogue. rewrite Hi, Hc. replay. reflexivity.
  - destruct l as [| | |reasoning text].
    + rewrite run_stream_not_data. auto.
    + rewrite run_stream_done. unfold stream_epilogue. rewrite Hi, Hc. replay.
      reflexivity.
    + rewrite run_stream_undecodable. auto.
    + rewrite run_stream_increment. rewrite !check_events_app.
      destruct st as [tot inr rs cs ci]. simpl in Hc, Hr, Hi. subst.
      unfold on_reasoning, on_text.
      destruct (truthy reasoning), (truthy text); replay;
        match goal with
        | |- all_closed (check_events (run_stream lines ?s) _) = true =>
            apply (IH s next); reflexivity
        end.
Qed.

(** A thinking block is open: a text delta closes it and opens the next
    block; the epilogue does so otherwise. *)
Lemma stream_in_reasoning : forall lines st next,
  content_started st = false -> reasoning_started st = true -> in_reasoning st = true ->
  next <= S (content_index st) ->
  all_closed (check_events (run_stream lines st) (Some (next, Some (content_index st))))
  = true.
Proof.
  induction lines as [|l lines IH]; intros st next Hc Hr Hi Hn;
    assert (Hle : (next <=? S (content_index st)) = true) by (apply Nat.leb_le; exact Hn).
  - rewrite run_stream_nil. unfold stream_epilogue. rewrite Hi, Hc, Hr. replay.
    reflexivity.
  - destruct l as [| | |reasoning text].
    + rewrite run_stream_not_data. auto.
    + rewrite run_stream_done. unfold stream_epilogue. rewrite Hi, Hc, Hr. replay.
      reflexivity.
    + rewrite run_stream_undecodable. auto.
    + rewrite run_stream_increment. rewrite !check_events_app.
      destruct st as [tot inr rs cs ci]. simpl in Hc, Hr, Hi, Hn, Hle. subst.
      unfold on_reasoning, on_text.
      destruct (truthy reasoning), (truthy text); replay;
        match goal with
        | |- all_closed (check_events (run_stream lines ?s) (Some (_, Some (S _)))) = true =>
            apply (stream_text_after_reasoning lines s); reflexivity
        | |- all_closed (check_events (run_stream lines ?s) _) = true =>
            apply (IH s next); [reflexivity | reflexivity | reflexivity | exact Hn]
        end.
Qed.

(** A text block is open and no reasoning has been seen: the first reasoning
    delta opens a second block under the index of the open one. *)
Lemma stream_text_first : forall lines st next,
  content_started st = true -> reasoning_started st = false -> in_reasoning st = false ->
  all_closed (check_events (run_stream lines st) (Some (next, Some (content_index st))))
  = forallb no_reasoning (increments lines).
Proof.
  induction lines as [|l lines IH]; intros st next Hc Hr Hi.
  - rewrite run_stream_nil. unfold stream_epilogue. rewrite Hi, Hc. replay. reflexivity.
  - destruct l as [| | |reasoning text].
    + rewrite run_stream_not_data. simpl. auto.
    + rewrite run_stream_done. unfold stream_epilogue. rewrite Hi, Hc. replay.
      reflexivity.
    + rewrite run_stream_undecodable. simpl. auto.
    + rewrite run_stream_increment. rewrite !check_events_app.
      destruct st as [tot inr rs cs ci]. simpl in Hc, Hr, Hi. subst.
      unfold on_reasoning, on_text. simpl increments. simpl forallb.
      unfold no_reasoning at 1. simpl fst.
      destruct (truthy reasoning), (truthy text); replay; try reflexivity;
        match goal with
        | |- all_closed (check_events (run_stream lines ?s) _) = _ =>
            apply (IH s next); reflexivity
        end.
Qed.

(** Nothing has been opened yet. *)
Lemma stream_nothing_open : forall lines st next,
  content_started st = false -> reasoning_started st = false -> in_reasoning st = false ->
  next <= content_index st ->
  all_closed (check_events (run_stream lines st) (Some (next, None)))
  = orderly (increments lines).
Proof.
  induction lines as [|l lines IH]; intros st next Hc Hr Hi Hn;
    assert (Hle : (next <=? content_index st) = true) by (apply Nat.leb_le; exact Hn).
  - rewrite run_stream_nil. unfold stream_epilogue. rewrite Hi, Hc, Hr. reflexivity.
  - destruct l as [| | |reasoning text].
    + rewrite run_stream_not_data. simpl. auto.
    + rewrite run_stream_done. unfold stream_epilogue. rewrite Hi, Hc, Hr. reflexivity.
    + rewrite run_stream_undecodable. simpl. auto.
    + rewrite run_stream_increment. rewrite !check_events_app.
      destruct st as [tot inr rs cs ci]. simpl in Hc, Hr, Hi, Hn, Hle. subst.
      unfold on_reasoning, on_text. simpl increments. simpl orderly.
      destruct (truthy reasoning), (truthy text); replay.
      * apply (stream_text_after_reasoning lines
                 {| total_output_tokens := tot + 1 + 1; in_reasoning := false;
                    reasoning_started := true; content_started := true;
                    content_index := S ci |}); reflexivity.
      * apply (stream_in_reasoning lines
                 {| total_output_tokens := tot + 1; in_reasoning := true;
                    reasoning_started := true; content_started := false;
                    content_index := ci |}); simpl; auto.
      * apply (stream_text_first lines
                 {| total_output_tokens := tot + 1; in_reasoning := false;
                    reasoning_started := false; content_started := true;
                    content_index := ci |}); reflexivity.
      * apply (IH {| total_output_tokens := tot; in_reasoning := false;
                     reasoning_started := false; content_started := false;
                     content_index := ci |} next); auto.
Qed.

(** The true-stream translator keeps the block-index invariant exactly on
    the orderly streams. *)
Lemma _handle_stream_invariant_iff : forall lines model n,
  block_invariant (_handle_stream lines model n) = orderly (increments lines).
Proof.
  intros lines model n. rewrite _handle_stream_run. unfold block_invariant.
  change (check_events (?e :: ?l) ?c) with (check_events l (check_event c e)).
  apply stream_nothing_open; auto.
Qed.

(** C1 (fails on the code): the block-index invariant of the true-stream
    translator.  On a backend stream without any reasoning or text delta the
    translator emits a delta and a stop for index 0 that no start precedes;
    on a text delta followed by a reasoning delta it starts index 0 twice
    and stops an index 1 that never started.  In both cases the invariant
    is broken. *)
Theorem C1_true_stream_breaks_block_invariant : forall model n,
  _handle_stream [Done] model n
  = [message_start (fresh_msg n) model 0;
     content_block_delta 0 (text_delta (str "(thinking limit reached)"));
     content_block_stop 0;
     message_delta (str "end_turn") 0;
     message_stop]
  /\ block_invariant (_handle_stream [Done] model n) = false
  /\ _handle_stream [Increment [] (str "hi"); Increment (str "hm") []; Done] model n
     = [message_start (fresh_msg n) model 0;
        content_block_start 0 (Text []);
        content_block_delta 0 (text_delta (str "hi"));
        content_block_start 0 (Thinking []);
        content_block_delta 0 (thinking_delta (str "hm"));
        content_block_stop 0;
        content_block_stop 1;
        message_delta (str "end_turn") 2;
        message_stop]
  /\ block_invariant
       (_handle_stream [Increment [] (str "hi"); Increment (str "hm") []; Done] model n)
     = false.
Proof.
  intros model n. repeat split; reflexivity.
Qed.

(** ** The pseudo-stream translator *)


Lemma sse_tool_fold : forall tool_calls events k n,
  fold_left sse_tool_block tool_calls (events, k, n)
  = (events ++ bursts k (sse_tool_items tool_calls n),
     k + length tool_calls, n + length tool_calls).
Proof.
  induction tool_calls as [|tc rest IH]; intros events k n; simpl.
  - rewrite app_nil_r, !Nat.add_0_r. reflexivity.
  - rewrite IH. rewrite <- app_assoc, !Nat.add_succ_r. reflexivity.
Qed.


(** The pseudo-stream is [message_start], one burst per block, then
    [message_delta] and [message_stop]. *)
Lemma _handle_sync_as_sse_bursts : forall names oai_resp model n,
  _handle_sync_as_sse names oai_resp model n
  = let '(content_text, reasoning_text, tool_calls, finish_reason, n') :=
      _process_ollama_response names oai_resp n in
    [message_start (fresh_msg n') model (get (resp_prompt_tokens oai_resp) 0%Z)]
    ++ bursts 0 (sse_items reasoning_text content_text tool_calls (S n'))
    ++ [message_delta (map_stop_reason finish_reason)
          (get (resp_completion_tokens oai_resp) 0%Z);
        message_stop].
Proof.
  intros names oai_resp model n. unfold _handle_sync_as_sse.
  destruct (_process_ollama_response names oai_resp n)
    as [[[[content_text reasoning_text] tool_calls] finish_reason] n'].
  unfold sse_items.
  destruct (truthy reasoning_text), (truthy content_text);
    rewrite sse_tool_fold; destruct tool_calls as [|tc rest];
    simpl; rewrite <- ?app_assoc; reflexivity.
Qed.





(** ** The request translator *)



Lemma translate_request_max_tokens : forall req n,
  oai_max_tokens (oai_req (translate_request req n))
  = Z.min (get (req_max_tokens req) 4096%Z) MAX_TOKENS_CAP.
Proof.
  intros req n. unfold translate_request.
  destruct (fold_left flatten_message _ _) as [oai_msgs n']. reflexivity.
Qed.

Lemma flatten_message_extends : forall msg out n,
  exists more, fst (flatten_message (out, n) msg) = out ++ more.
Proof.
  intros msg out n. unfold flatten_message.
  destruct (get (msg_content msg) (ContentText [])) as [text|blocks].
  - eexists. reflexivity.
  - destruct (fold_left flatten_block blocks _) as [p n'].
    destruct (tool_results p), (tool_calls_out p); eexists; reflexivity.
Qed.

Lemma flatten_messages_extend : forall messages out n,
  exists more, fst (fold_left flatten_message messages (out, n)) = out ++ more.
Proof.
  induction messages as [|msg messages IH]; intros out n.
  - exists []. rewrite app_nil_r. reflexivity.
  - change (fold_left flatten_message (msg :: messages) (out, n))
      with (fold_left flatten_message messages (flatten_message (out, n) msg)).
    destruct (flatten_message_extends msg out n) as [more1 H1].
    destruct (flatten_message (out, n) msg) as [out1 n1]. simpl in H1. subst out1.
    destruct (IH (out ++ more1) n1) as [more2 H2].
    exists (more1 ++ more2). rewrite H2, app_assoc. reflexivity.
Qed.

(** A request with a non-empty system prompt is forwarded with the system
    message first. *)
Lemma translate_request_system : forall req n system,
  req_system req = Some system -> system_truthy system = true ->
  exists rest,
    oai_messages (oai_req (translate_request req n))
    = OaiMessage (str "system")
        (forwarded_system system (has_tools req)
           (tool_names (filter_tools (get (req_tools req) []))))
        :: rest.
Proof.
  intros req n system Hsys Htruthy. unfold translate_request, has_tools.
  rewrite Hsys, Htruthy.
  match goal with
  | |- context [fold_left flatten_message ?ms (?init, n)] =>
      destruct (flatten_messages_extend ms init n) as [more H];
      destruct (fold_left flatten_message ms (init, n)) as [oai_msgs n']
  end.
  simpl in H. subst oai_msgs. exists more. reflexivity.
Qed.


(** C6: a request with [max_tokens = N] is forwarded with
    [max_tokens = min(N, MAX_TOKENS_CAP)]. *)
Theorem C6_max_tokens_clamped : forall req n N,
  req_max_tokens req = Some N ->
  oai_max_tokens (oai_req (translate_request req n)) = Z.min N MAX_TOKENS_CAP.
Proof.
  intros req n N H. rewrite translate_request_max_tokens, H. reflexivity.
Qed.

Lemma concat_system_truthy : forall system,
  0 < length (concat_system system) -> system_truthy system = true.
Proof.
  intros [text|blocks]; simpl.
  - destruct text; simpl; [lia | reflexivity].
  - destruct blocks; simpl; [lia | reflexivity].
Qed.

Lemma truncate_system_long : forall sys_text,
  SYSTEM_PROMPT_MAX_CHARS < length sys_text ->
  truncate_system sys_text = firstn SYSTEM_PROMPT_MAX_CHARS sys_text ++ truncation_suffix
  /\ length (truncate_system sys_text)
     = SYSTEM_PROMPT_MAX_CHARS + length truncation_suffix.
Proof.
  intros sys_text Hlong. unfold truncate_system.
  apply Nat.ltb_lt in Hlong as Hb. rewrite Hb. split; [reflexivity|].
  rewrite length_app, firstn_length_le by lia. reflexivity.
Qed.

(** C7 (amended): a request whose concatenated system prompt has 6000
    characters is forwarded with the first 4000 of them followed by the
    fixed truncation suffix; when no tool remains after the allow-list
    filter that is the whole text, of length 4000 plus the length of the
    suffix, and when tools remain the function-calling directive follows
    the suffix. *)
Theorem C7_system_prompt_truncated : forall req n system,
  req_system req = Some system ->
  length (concat_system system) = 6000 ->
  exists text rest,
    oai_messages (oai_req (translate_request req n))
    = OaiMessage (str "system") text :: rest
    /\ if has_tools req
       then text = firstn 4000 (concat_system system) ++ truncation_suffix
                   ++ fc_hint (tool_names (filter_tools (get (req_tools req) [])))
       else text = firstn 4000 (concat_system system) ++ truncation_suffix
            /\ length text = 4000 + length truncation_suffix.
Proof.
  intros req n system Hsys Hlen.
  assert (Htruthy : system_truthy system = true)
    by (apply concat_system_truthy; rewrite Hlen; apply Nat.lt_0_succ).
  destruct (translate_request_system req n Hsys Htruthy) as [rest Hmsgs].
  assert (Hlong : SYSTEM_PROMPT_MAX_CHARS < length (concat_system system))
    by (rewrite Hlen; unfold SYSTEM_PROMPT_MAX_CHARS; apply Nat.ltb_lt; reflexivity).
  destruct (truncate_system_long _ Hlong) as [Htext Hlength].
  eexists. exists rest. split; [exact Hmsgs|].
  unfold forwarded_system.
  destruct (has_tools req).
  - rewrite Htext. rewrite <- app_assoc. reflexivity.
  - split; [exact Htext | exact Hlength].
Qed.

(** ** The response translators on special responses *)

Lemma process_without_content : forall names oai_resp n,
  get (resp_content oai_resp) [] = [] ->
  _process_ollama_response names oai_resp n
  = ([], get (resp_reasoning oai_resp) [], resp_tool_calls oai_resp,
     get (resp_finish_reason oai_resp) (str "end_turn"), n).
Proof.
  intros names oai_resp n Hc. unfold _process_ollama_response. rewrite Hc.
  destruct (resp_tool_calls oai_resp); reflexivity.
Qed.


(** C3 (amended): on a backend response whose content, reasoning and tool
    calls are all empty, the synchronous translator answers with exactly
    one block, a text block with the empty string; the pseudo-stream
    translator emits exactly one block, a text block opened empty whose
    single delta carries the placeholder [(empty response)]. *)
Theorem C3_empty_response_one_block : forall names oai_resp model n,
  get (resp_content oai_resp) [] = [] ->
  get (resp_reasoning oai_resp) [] = [] ->
  resp_tool_calls oai_resp = [] ->
  ar_content (_handle_sync names oai_resp model n) = [Text []]
  /\ _handle_sync_as_sse names oai_resp model n
     = [message_start (fresh_msg n) model (get (resp_prompt_tokens oai_resp) 0%Z);
        content_block_start 0 (Text []);
        content_block_delta 0 (text_delta (str "(empty response)"));
        content_block_stop 0;
        message_delta
          (map_stop_reason (get (resp_finish_reason oai_resp) (str "end_turn")))
          (get (resp_completion_tokens oai_resp) 0%Z);
        message_stop]
  /\ received_blocks (_handle_sync_as_sse names oai_resp model n)
     = [Text (str "(empty response)")].
Proof.
  intros names oai_resp model n Hc Hr Ht.
  unfold _handle_sync, _handle_sync_as_sse.
  rewrite (process_without_content names oai_resp n Hc), Hr, Ht.
  repeat split; reflexivity.
Qed.

(** C4 (amended): on a backend response with empty content, no reasoning,
    the single structured tool call Bash with arguments
    [{'command':'ls'}] and finish reason [tool_calls], the synchronous
    translator answers with exactly one [tool_use] block, named Bash, whose
    input is the object parsed from the arguments and whose id starts with
    [toolu_], and with stop reason [tool_use]. *)
Theorem C4_bash_round_trip : forall names oai_resp model n id,
  get (resp_content oai_resp) [] = [] ->
  get (resp_reasoning oai_resp) [] = [] ->
  resp_tool_calls oai_resp
  = [{| tc_id := id; tc_name := Some (str "Bash");
        tc_arguments := Some (strq "{'command':'ls'}") |}] ->
  resp_finish_reason oai_resp = Some (str "tool_calls") ->
  exists tool_use_id,
    ar_content (_handle_sync names oai_resp model n)
    = [ToolUse tool_use_id (str "Bash") (JObject [(str "command", JString (str "ls"))])]
    /\ startswith (str "toolu_") tool_use_id = true
    /\ ar_stop_reason (_handle_sync names oai_resp model n) = str "tool_use".
Proof.
  intros names oai_resp model n id Hc Hr Ht Hf.
  unfold _handle_sync.
  rewrite (process_without_content names oai_resp n Hc), Hr, Ht, Hf.
  cbn [truthy app fold_left sync_tool_block get tc_id tc_name].
  destruct (startswith (str "toolu_") (get id [])) eqn:Hid.
  - exists (get id []). split; [reflexivity | split; [exact Hid | reflexivity]].
  - exists (fresh_toolu n). split; [reflexivity | split; reflexivity].
Qed.

(** ** Tool calls in the response translators *)

Lemma fresh_toolu_prefix : forall k, startswith (str "toolu_") (fresh_toolu k) = true.
Proof. reflexivity. Qed.


Lemma sync_tool_fold : forall tool_calls blocks n,
  exists tool_blocks n',
    fold_left sync_tool_block tool_calls (blocks, n) = (blocks ++ tool_blocks, n')
    /\ Forall2 kept_or_fresh tool_calls tool_blocks.
Proof.
  induction tool_calls as [|tc rest IH]; intros blocks n.
  - exists [], n. rewrite app_nil_r. split; [reflexivity | constructor].
  - cbn [fold_left]. unfold sync_tool_block at 2.
    destruct (startswith (str "toolu_") (get (tc_id tc) [])) eqn:Hid.
    + destruct (IH (blocks ++ [ToolUse (get (tc_id tc) []) (get (tc_name tc) [])
                                 (tool_input_of tc)]) n)
        as (tool_blocks & n' & Hfold & Hall).
      eexists (_ :: tool_blocks), n'. rewrite Hfold, <- app_assoc.
      split; [reflexivity|]. constructor; [|exact Hall].
      eexists. split; [reflexivity|]. split; [exact Hid | rewrite Hid; reflexivity].
    + destruct (IH (blocks ++ [ToolUse (fresh_toolu n) (get (tc_name tc) [])
                                 (tool_input_of tc)]) (S n))
        as (tool_blocks & n' & Hfold & Hall).
      eexists (_ :: tool_blocks), n'. rewrite Hfold, <- app_assoc.
      split; [reflexivity|]. constructor; [|exact Hall].
      eexists. split; [reflexivity|]. rewrite Hid.
      split; [apply fresh_toolu_prefix | exists n; reflexivity].
Qed.


(** The content of the synchronous answer: thinking, text, then one block
    per tool call. *)
Lemma _handle_sync_content : forall names oai_resp model n,
  exists front tool_blocks,
    Forall2 kept_or_fresh (processed_calls names oai_resp n) tool_blocks
    /\ Forall (fun b => is_tool_use b = false) front
    /\ ar_content (_handle_sync names oai_resp model n)
       = match front ++ tool_blocks with
         | [] => [Text []]
         | l => l
         end.
Proof.
  intros names oai_resp model n. unfold _handle_sync, processed_calls.
  destruct (_process_ollama_response names oai_resp n)
    as [[[[content_text reasoning_text] tool_calls] finish_reason] n'].
  set (front := (if truthy reasoning_text then [Thinking reasoning_text] else [])
                ++ (if truthy content_text then [Text content_text] else [])).
  destruct (sync_tool_fold tool_calls front n') as (tool_blocks & n'' & Hfold & Hall).
  exists front, tool_blocks. rewrite Hfold. cbn [ar_content].
  split; [exact Hall|]. split.
  - subst front. destruct (truthy reasoning_text), (truthy content_text);
      repeat constructor.
  - destruct (front ++ tool_blocks) eqn:E; [|reflexivity].
    apply app_eq_nil in E. destruct E as [E _]. subst front.
    destruct reasoning_text; [reflexivity | discriminate].
Qed.

Lemma filter_tool_use_front : forall front tool_blocks,
  Forall (fun b => is_tool_use b = false) front ->
  (forall b, In b tool_blocks -> is_tool_use b = true) ->
  filter is_tool_use (front ++ tool_blocks) = tool_blocks.
Proof.
  intros front tool_blocks Hfront Htools. rewrite filter_app.
  replace (filter is_tool_use front) with (@nil content_block).
  - simpl. induction tool_blocks as [|b bs IH]; [reflexivity|].
    simpl. rewrite (Htools b) by (left; reflexivity).
    f_equal. apply IH. intros b' Hb'. apply Htools. right. exact Hb'.
  - induction Hfront as [|b bs Hb _ IH]; [reflexivity|]. simpl. rewrite Hb. exact IH.
Qed.

Lemma kept_or_fresh_tool_use : forall tool_calls tool_blocks,
  Forall2 kept_or_fresh tool_calls tool_blocks ->
  forall b, In b tool_blocks -> is_tool_use b = true.
Proof.
  intros tool_calls tool_blocks H. induction H as [|tc b tcs bs (id & -> & _) _ IH].
  - intros b [].
  - intros b' [<-|Hin]; [reflexivity | apply IH; exact Hin].
Qed.








Lemma _handle_sync_tool_blocks : forall names oai_resp model n,
  Forall2 kept_or_fresh (processed_calls names oai_resp n)
    (filter is_tool_use (ar_content (_handle_sync names oai_resp model n))).
Proof.
  intros names oai_resp model n.
  destruct (_handle_sync_content names oai_resp model n)
    as (front & tool_blocks & Hall & Hfront & ->).
  destruct (front ++ tool_blocks) eqn:E.
  - apply app_eq_nil in E. destruct E as [_ ->]. exact Hall.
  - rewrite <- E. rewrite filter_tool_use_front; auto.
    eapply kept_or_fresh_tool_use. exact Hall.
Qed.




(** ** The extractor on the markup of the specification *)

(** C8: on an [invoke] element for Read with the parameter [file_path] set
    to [/tmp/x] and no known tool names, the extractor returns exactly one
    call, named Read, whose arguments are the JSON encoding of the object
    that maps [file_path] to [/tmp/x], and an empty cleaned text. *)
Theorem C8_invoke_extraction : forall n,
  _extract_tool_calls_from_text
    (strq "<invoke name='Read'><parameter name='file_path'>/tmp/x</parameter></invoke>")
    None n
  = ([{| tc_id := Some (str "call_" ++ firstn 8 (uuid4_hex n));
         tc_name := Some (str "Read");
         tc_arguments :=
           Some (json_dumps (JObject [(str "file_path", JString (str "/tmp/x"))])) |}],
     [], S n)
  /\ json_dumps (JObject [(str "file_path", JString (str "/tmp/x"))])
     = strq "{'file_path': '/tmp/x'}"
  /\ json_loads (strq "{'file_path': '/tmp/x'}")
     = Some (JObject [(str "file_path", JString (str "/tmp/x"))]).
Proof.
  intros n. split; [|split]; vm_compute; reflexivity.
Qed.









(** ** [json_loads] never runs out of fuel *)

Lemma skip_ws_length : forall s, length (skip_ws s) <= length s.
Proof.
  induction s as [|c s IH]; simpl; [lia|].
  destruct (is_json_ws c); simpl; lia.
Qed.

Lemma take_digits_length : forall s ds rest,
  take_digits s = (ds, rest) -> length rest <= length s.
Proof.
  induction s as [|c s IH]; intros ds rest H; simpl in H.
  - injection H as _ <-. simpl. lia.
  - destruct (is_digit c).
    + destruct (take_digits s) as [ds' rest'] eqn:E.
      injection H as _ <-. specialize (IH _ _ eq_refl). simpl. lia.
    + injection H as _ <-. simpl. lia.
Qed.

Lemma match_frac_length : forall s fr rest,
  match_frac s = (fr, rest) -> length rest <= length s.
Proof.
  intros s fr rest H. unfold match_frac in H.
  destruct s as [|dot [|d s']]; try (injection H as _ <-; simpl; lia).
  destruct ((dot =? 46)%N && is_digit d).
  - destruct (take_digits s') as [ds rest'] eqn:E. injection H as _ <-.
    apply take_digits_length in E. simpl. lia.
  - injection H as _ <-. simpl. lia.
Qed.

Lemma match_exp_length : forall s ex rest,
  match_exp s = (ex, rest) -> length rest <= length s.
Proof.
  intros s ex rest H. unfold match_exp in H.
  destruct s as [|e s']; [injection H as _ <-; simpl; lia|].
  destruct ((e =? 101) || (e =? 69))%N; [|injection H as _ <-; simpl; lia].
  destruct s' as [|sg s'']; [injection H as _ <-; simpl; lia|].
  destruct ((sg =? 43) || (sg =? 45))%N.
  - destruct (take_digits s'') as [[|d ds] rest'] eqn:E;
      injection H as _ <-; [simpl; lia|].
    apply take_digits_length in E. simpl. lia.
  - destruct (take_digits (sg :: s'')) as [[|d ds] rest'] eqn:E;
      injection H as _ <-; [simpl; lia|].
    apply take_digits_length in E. simpl in *. lia.
Qed.

Lemma match_int_part_length : forall s ip rest,
  match_int_part s = Some (ip, rest) -> length rest < length s.
Proof.
  intros s ip rest H. unfold match_int_part in H.
  destruct s as [|c s']; [discriminate|].
  destruct (c =? 48)%N.
  - injection H as _ <-. simpl. lia.
  - destruct (is_digit c); [|discriminate].
    destruct (take_digits s') as [ds rest'] eqn:E. injection H as _ <-.
    apply take_digits_length in E. simpl. lia.
Qed.

Lemma match_unsigned_length : forall sign s0 v rest,
  match_unsigned sign s0 = Some (v, rest) -> length rest < length s0.
Proof.
  intros sign s0 v rest H. unfold match_unsigned in H.
  destruct (match_int_part s0) as [[ip s1]|] eqn:Eint; [|discriminate].
  apply match_int_part_length in Eint.
  destruct (match_frac s1) as [fr s2] eqn:Efrac. apply match_frac_length in Efrac.
  destruct (match_exp s2) as [ex s3] eqn:Eexp. apply match_exp_length in Eexp.
  destruct fr, ex; injection H as _ <-; lia.
Qed.

Lemma match_number_length : forall s v rest,
  match_number s = Some (v, rest) -> length rest < length s.
Proof.
  intros s v rest H. unfold match_number in H.
  destruct s as [|c s']; [discriminate|].
  destruct (c =? 45)%N; apply match_unsigned_length in H; simpl in *; lia.
Qed.

Lemma scanstring_length : forall k s acc t rest,
  length s <= k -> scanstring s acc = Some (t, rest) -> length rest < length s.
Proof.
  induction k as [|k IH]; intros s acc t rest Hk H.
  - destruct s; [discriminate | simpl in Hk; lia].
  - destruct s as [|c s1]; [discriminate|].
    simpl in Hk. cbn [scanstring] in H.
    destruct (c =? 34)%N; [injection H as _ <-; simpl; lia|].
    destruct (c =? 92)%N.
    + destruct s1 as [|e s2]; [discriminate|].
      destruct (e =? 117)%N.
      * destruct s2 as [|h1 [|h2 [|h3 [|h4 s3]]]]; try discriminate.
        destruct (hex4 h1 h2 h3 h4) as [u|]; [|discriminate].
        simpl in Hk.
        assert (Hplain : forall r, scanstring s3 (u :: acc) = Some (t, r) ->
                                   length r < length (c :: e :: h1 :: h2 :: h3 :: h4 :: s3)).
        { intros r Hr. apply IH in Hr; [simpl; lia | lia]. }
        destruct s3 as [|b [|v [|l1 [|l2 [|l3 [|l4 s4]]]]]]; try (apply Hplain; exact H).
        destruct (is_high_surrogate u && (b =? 92)%N && (v =? 117)%N);
          [|apply Hplain; exact H].
        destruct (hex4 l1 l2 l3 l4) as [u2|]; [|discriminate].
        destruct (is_low_surrogate u2); [|apply Hplain; exact H].
        apply IH in H; simpl in *; lia.
      * destruct (simple_escape e); [|discriminate].
        apply IH in H; simpl in *; lia.
    + destruct (c <? 32)%N; [discriminate|].
      apply IH in H; simpl in *; lia.
Qed.

Lemma startswith_skipn_length : forall p s k,
  p <> [] -> startswith p s = true -> 0 < k -> length (skipn k s) < length s.
Proof.
  intros p s k Hp Hs Hk. destruct s as [|c s].
  - destruct p; [contradiction | discriminate].
  - destruct k; [lia|]. simpl. rewrite length_skipn. lia.
Qed.

Lemma scan_ok_weaken : forall r s s',
  scan_ok r s' -> length s' <= length s -> scan_ok r s.
Proof. intros [v rest| |] s s' H Hle; simpl in *; [lia | exact I | exact H]. Qed.

Ltac ws_bound :=
  repeat match goal with
         | E : skip_ws ?s = _ |- _ =>
             let H := fresh "Hws" in
             pose proof (skip_ws_length s) as H; rewrite E in H; simpl in H;
             revert E
         end;
  intros.

Lemma scan_fuel : forall fuel,
  (forall s, 2 * length s + 1 <= fuel -> scan_ok (scan_once fuel s) s)
  /\ (forall s acc, 2 * length s + 2 <= fuel -> scan_ok (array_items fuel s acc) s)
  /\ (forall s acc, 2 * length s + 2 <= fuel -> scan_ok (object_members fuel s acc) s).
Proof.
  induction fuel as [|f (IHonce & IHarray & IHobject)].
  - repeat split; intros; lia.
  - split; [|split].
    + intros [|c rest] Hf; [exact I|]. cbn [scan_once]. simpl length in Hf.
      destruct (c =? 34)%N.
      { destruct (scanstring rest []) as [[t rest']|] eqn:E; [|exact I].
        apply (scanstring_length (k := length rest)) in E; [simpl; lia | lia]. }
      destruct (c =? 123)%N.
      { destruct (skip_ws rest) as [|c1 rest'] eqn:E; [exact I|]. ws_bound.
        destruct (c1 =? 125)%N; [simpl; lia|].
        destruct (c1 =? 34)%N; [|exact I].
        apply scan_ok_weaken with (s' := rest'); [|simpl; lia].
        apply IHobject. lia. }
      destruct (c =? 91)%N.
      { destruct (skip_ws rest) as [|c1 rest'] eqn:E; ws_bound.
        - apply scan_ok_weaken with (s' := []); [|simpl; lia].
          apply IHarray. simpl. lia.
        - destruct (c1 =? 93)%N; [simpl; lia|].
          apply scan_ok_weaken with (s' := c1 :: rest'); [|simpl; lia].
          apply IHarray. simpl. lia. }
      repeat match goal with
             | |- scan_ok (if startswith ?p ?s then _ else _) _ =>
                 let E := fresh "E" in
                 destruct (startswith p s) eqn:E;
                 [ unfold scan_ok;
                   eapply startswith_skipn_length; [ | exact E | ];
                   [ intros X; vm_compute in X; discriminate X | lia ] | ]
             end.
      destruct (match_number (c :: rest)) as [[v rest']|] eqn:Enum; [|exact I].
      apply match_number_length in Enum. exact Enum.
    + intros s acc Hf. cbn [array_items].
      assert (Hin : scan_ok (scan_once f s) s) by (apply IHonce; lia).
      destruct (scan_once f s) as [v rest| |]; [|exact I|exact Hin].
      simpl in Hin.
      destruct (skip_ws rest) as [|c1 rest'] eqn:E; [exact I|]. ws_bound.
      destruct (c1 =? 93)%N; [simpl; lia|].
      destruct (c1 =? 44)%N; [|exact I].
      pose proof (skip_ws_length rest') as Hws'.
      apply scan_ok_weaken with (s' := skip_ws rest'); [|lia].
      apply IHarray. lia.
    + intros s acc Hf. cbn [object_members].
      destruct (scanstring s []) as [[key rest]|] eqn:Ekey; [|exact I].
      apply (scanstring_length (k := length s)) in Ekey; [|lia].
      destruct (skip_ws rest) as [|colon rest1] eqn:E; [exact I|]. ws_bound.
      destruct (colon =? 58)%N; [|exact I].
      pose proof (skip_ws_length rest1) as Hws1.
      assert (Hin : scan_ok (scan_once f (skip_ws rest1)) (skip_ws rest1))
        by (apply IHonce; lia).
      destruct (scan_once f (skip_ws rest1)) as [v rest2| |]; [|exact I|exact Hin].
      simpl in Hin.
      destruct (skip_ws rest2) as [|c2 rest3] eqn:E2; [exact I|]. ws_bound.
      destruct (c2 =? 125)%N; [simpl; lia|].
      destruct (c2 =? 44)%N; [|exact I].
      destruct (skip_ws rest3) as [|c4 rest4] eqn:E4; [exact I|]. ws_bound.
      destruct (c4 =? 34)%N; [|exact I].
      apply scan_ok_weaken with (s' := rest4); [|lia].
      apply IHobject. lia.
Qed.

(** With the fuel [json_loads] gives it, the scanner ends: [None] stands for
    a decode error only. *)
Lemma json_loads_fuel : forall s,
  scan_once (2 * length (skip_ws s) + 1) (skip_ws s) <> OutOfFuel.
Proof.
  intros s H.
  pose proof (proj1 (scan_fuel (2 * length (skip_ws s) + 1)) (skip_ws s) (le_n _)) as Hok.
  rewrite H in Hok. exact Hok.
Qed.

(** * Further properties *)

(** ** The true-stream translator, continued *)


Lemma truthy_self : forall s, (if truthy s then s else []) = s.
Proof. destruct s; reflexivity. Qed.

Lemma on_reasoning_facts : forall st reasoning,
  let st1 := fst (on_reasoning st reasoning) in
  let out := snd (on_reasoning st reasoning) in
  content_started st1 = content_started st
  /\ total_output_tokens st1
     = (total_output_tokens st + (if truthy reasoning then 1 else 0))%Z
  /\ streamed_thinking out = reasoning
  /\ streamed_text out = []
  /\ existsb is_tool_event out = false.
Proof.
  intros st reasoning. unfold on_reasoning.
  destruct reasoning as [|c r]; simpl.
  - repeat split; try reflexivity. lia.
  - destruct (reasoning_started st); simpl; rewrite ?app_nil_r; repeat split; reflexivity.
Qed.

Lemma on_text_facts : forall st text,
  let st1 := fst (on_text st text) in
  let out := snd (on_text st text) in
  content_started st1 = content_started st || truthy text
  /\ total_output_tokens st1
     = (total_output_tokens st + (if truthy text then 1 else 0))%Z
  /\ streamed_thinking out = []
  /\ streamed_text out = text
  /\ existsb is_tool_event out = false.
Proof.
  intros st text. unfold on_text.
  destruct text as [|c t]; simpl.
  - rewrite orb_false_r. repeat split; try reflexivity. lia.
  - rewrite orb_true_r.
    destruct (in_reasoning st), (content_started st); simpl; rewrite ?app_nil_r;
      repeat split; reflexivity.
Qed.

Lemma stream_epilogue_facts : forall st,
  streamed_thinking (stream_epilogue st) = []
  /\ streamed_text (stream_epilogue st)
     = (if content_started st then [] else str "(thinking limit reached)")
  /\ existsb is_tool_event (stream_epilogue st) = false
  /\ exists front,
       stream_epilogue st
       = front ++ [message_delta (str "end_turn") (total_output_tokens st); message_stop].
Proof.
  intros st. unfold stream_epilogue.
  destruct (in_reasoning st), (content_started st), (reasoning_started st); simpl;
    (split; [reflexivity | split; [reflexivity | split; [reflexivity|]]]);
    match goal with
    | |- exists front, ?l = _ =>
        exists (removelast (removelast l)); reflexivity
    end.
Qed.

Lemma streamed_thinking_app : forall a b,
  streamed_thinking (a ++ b) = streamed_thinking a ++ streamed_thinking b.
Proof. intros. apply flat_map_app. Qed.

Lemma streamed_text_app : forall a b,
  streamed_text (a ++ b) = streamed_text a ++ streamed_text b.
Proof. intros. apply flat_map_app. Qed.

(** What the loop and the epilogue emit from state [st] on. *)
Lemma run_stream_facts : forall lines st,
  streamed_thinking (run_stream lines st) = flat_map fst (increments lines)
  /\ streamed_text (run_stream lines st)
     = flat_map snd (increments lines)
       ++ (if content_started st || existsb (fun inc => truthy (snd inc)) (increments lines)
           then [] else str "(thinking limit reached)")
  /\ existsb is_tool_event (run_stream lines st) = false
  /\ exists front,
       run_stream lines st
       = front
         ++ [message_delta (str "end_turn")
               (fold_left count_delta (increments lines) (total_output_tokens st));
             message_stop].
Proof.
  induction lines as [|l lines IH]; intros st.
  - rewrite run_stream_nil. simpl. rewrite orb_false_r. apply stream_epilogue_facts.
  - destruct l as [| | |reasoning text].
    + rewrite run_stream_not_data. apply IH.
    + rewrite run_stream_done. simpl. rewrite orb_false_r. apply stream_epilogue_facts.
    + rewrite run_stream_undecodable. apply IH.
    + rewrite run_stream_increment.
      destruct (on_reasoning_facts st reasoning) as (Hc1 & Ht1 & Hth1 & Htx1 & Hto1).
      destruct (on_text_facts (fst (on_reasoning st reasoning)) text)
        as (Hc2 & Ht2 & Hth2 & Htx2 & Hto2).
      cbv zeta in *.
      destruct (IH (fst (on_text (fst (on_reasoning st reasoning)) text)))
        as (IHth & IHtx & IHto & front & IHlast).
      rewrite !streamed_thinking_app, !streamed_text_app, !existsb_app.
      rewrite Hth1, Htx1, Hto1, Hth2, Htx2, Hto2, IHth, IHtx, IHto.
      rewrite Hc2, Hc1. simpl increments. cbn [flat_map existsb fst snd fold_left].
      cbn [app]. split; [reflexivity|]. split.
      * rewrite <- app_assoc, orb_assoc. reflexivity.
      * split; [reflexivity|].
        exists (snd (on_reasoning st reasoning)
                ++ snd (on_text (fst (on_reasoning st reasoning)) text) ++ front).
        rewrite IHlast, Ht2, Ht1. unfold count_delta. cbn [fst snd].
        rewrite <- !app_assoc. reflexivity.
Qed.






(** X5: the true-stream translator never emits an event of a tool call: no
    [tool_use] block is started and no [input_json_delta] is sent. *)
Theorem X5_stream_has_no_tool_events : forall lines model n,
  existsb is_tool_event (_handle_stream lines model n) = false.
Proof.
  intros lines model n. rewrite _handle_stream_run.
  destruct (run_stream_facts lines initial_stream_state) as (_ & _ & H & _).
  exact H.
Qed.

(** ** The response translators, continued *)

Lemma sync_tool_fold_shapes : forall tool_calls blocks n,
  map shape_of (fst (fold_left sync_tool_block tool_calls (blocks, n)))
  = map shape_of blocks ++ map (fun tc => ToolShape (get (tc_name tc) [])) tool_calls.
Proof.
  induction tool_calls as [|tc rest IH]; intros blocks n.
  - simpl. rewrite app_nil_r. reflexivity.
  - cbn [fold_left]. unfold sync_tool_block at 2.
    destruct (startswith (str "toolu_") (get (tc_id tc) []));
      rewrite IH, map_app, <- app_assoc; reflexivity.
Qed.

Lemma _handle_sync_shapes : forall names oai_resp model n,
  map shape_of (ar_content (_handle_sync names oai_resp model n))
  = rendered_shapes names oai_resp n.
Proof.
  intros names oai_resp model n. unfold _handle_sync, rendered_shapes.
  destruct (_process_ollama_response names oai_resp n)
    as [[[[content_text reasoning_text] tool_calls] finish_reason] n'].
  set (front := (if truthy reasoning_text then [Thinking reasoning_text] else [])
                ++ (if truthy content_text then [Text content_text] else [])).
  pose proof (sync_tool_fold_shapes tool_calls front n') as H.
  destruct (fold_left sync_tool_block tool_calls (front, n')) as [blocks n''].
  cbn [fst] in H. cbn [ar_content].
  assert (Hfront : map shape_of front
                   = (if truthy reasoning_text then [ThinkingShape] else [])
                     ++ (if truthy content_text then [TextShape] else []))
    by (subst front; destruct (truthy reasoning_text), (truthy content_text); reflexivity).
  rewrite Hfront, <- app_assoc in H.
  destruct blocks as [|b blocks].
  - simpl in H. rewrite <- H. reflexivity.
  - rewrite H. destruct (_ ++ _ ++ _) eqn:E; [|reflexivity].
    rewrite <- H in E. discriminate.
Qed.

Lemma started_shapes_bursts : forall l k,
  started_shapes (bursts k l) = map (fun item => shape_of (fst item)) l.
Proof.
  induction l as [|[b d] l IH]; intros k; [reflexivity|].
  simpl. f_equal. apply IH.
Qed.

Lemma sse_tool_items_shapes : forall tool_calls n,
  map (fun item => shape_of (fst item)) (sse_tool_items tool_calls n)
  = map (fun tc => ToolShape (get (tc_name tc) [])) tool_calls.
Proof.
  induction tool_calls as [|tc rest IH]; intros n; [reflexivity|].
  simpl. f_equal. apply IH.
Qed.

Lemma _handle_sync_as_sse_shapes : forall names oai_resp model n,
  started_shapes (_handle_sync_as_sse names oai_resp model n)
  = rendered_shapes names oai_resp n.
Proof.
  intros names oai_resp model n. rewrite _handle_sync_as_sse_bursts.
  unfold rendered_shapes.
  destruct (_process_ollama_response names oai_resp n)
    as [[[[content_text reasoning_text] tool_calls] finish_reason] n'].
  unfold started_shapes. rewrite !flat_map_app.
  change (flat_map _ (bursts 0 ?l)) with (started_shapes (bursts 0 l)).
  rewrite started_shapes_bursts. simpl. rewrite app_nil_r.
  unfold sse_items.
  destruct (truthy reasoning_text), (truthy content_text), tool_calls as [|tc rest];
    simpl; rewrite ?sse_tool_items_shapes; reflexivity.
Qed.


(** X7: the synchronous and the pseudo-stream translator render a backend
    response alike: the blocks the stream starts have the types and tool
    names of the blocks of the synchronous answer, which is never empty,
    and the stream reports the same input tokens, stop reason and output
    tokens. *)
Theorem X7_sync_and_pseudo_stream_agree : forall names oai_resp model n,
  started_shapes (_handle_sync_as_sse names oai_resp model n)
  = map shape_of (ar_content (_handle_sync names oai_resp model n))
  /\ ar_content (_handle_sync names oai_resp model n) <> []
  /\ exists id middle,
       _handle_sync_as_sse names oai_resp model n
       = message_start id model (ar_input_tokens (_handle_sync names oai_resp model n))
           :: middle
           ++ [message_delta (ar_stop_reason (_handle_sync names oai_resp model n))
                 (ar_output_tokens (_handle_sync names oai_resp model n));
               message_stop].
Proof.
  intros names oai_resp model n. split; [|split].
  - rewrite _handle_sync_as_sse_shapes, _handle_sync_shapes. reflexivity.
  - intros E. pose proof (_handle_sync_shapes names oai_resp model n) as H.
    rewrite E in H. unfold rendered_shapes in H.
    destruct (_process_ollama_response names oai_resp n)
      as [[[[content_text reasoning_text] tool_calls] finish_reason] n'].
    destruct (_ ++ _ ++ _); discriminate.
  - rewrite _handle_sync_as_sse_bursts. unfold _handle_sync.
    destruct (_process_ollama_response names oai_resp n)
      as [[[[content_text reasoning_text] tool_calls] finish_reason] n'].
    destruct (fold_left sync_tool_block tool_calls _) as [blocks n''].
    do 2 eexists. reflexivity.
Qed.

(** X8: when the backend sent no structured tool call and the extractor
    salvages at least one call from the content, the synchronous answer has
    stop reason [tool_use] whatever the backend's finish reason, one
    [tool_use] block per salvaged call, and only the cleaned text in its
    text block. *)
Theorem X8_salvaged_calls_become_tool_use :
  forall names oai_resp model n content calls cleaned n',
    resp_tool_calls oai_resp = [] ->
    resp_content oai_resp = Some content ->
    content <> [] ->
    names <> [] ->
    _extract_tool_calls_from_text content (Some names) n = (calls, cleaned, n') ->
    calls <> [] ->
    ar_stop_reason (_handle_sync names oai_resp model n) = str "tool_use"
    /\ Forall2 kept_or_fresh calls
         (filter is_tool_use (ar_content (_handle_sync names oai_resp model n)))
    /\ forall text,
         In (Text text) (ar_content (_handle_sync names oai_resp model n)) ->
         text = cleaned.
Proof.
  intros names oai_resp model n content calls cleaned n' Ht Hc Hcne Hn Hex Hcalls.
  assert (Hp : _process_ollama_response names oai_resp n
               = (cleaned, get (resp_reasoning oai_resp) [], calls, str "tool_calls", n')).
  { unfold _process_ollama_response. rewrite Ht, Hc. cbn [get].
    destruct content as [|c content]; [contradiction|].
    destruct names as [|t names]; [contradiction|].
    rewrite Hex. destruct calls; [contradiction | reflexivity]. }
  split; [|split].
  - unfold _handle_sync. rewrite Hp.
    destruct (fold_left sync_tool_block calls _) as [blocks n'']. reflexivity.
  - pose proof (_handle_sync_tool_blocks names oai_resp model n) as H.
    unfold processed_calls in H. rewrite Hp in H. exact H.
  - intros text Hin. unfold _handle_sync in Hin. rewrite Hp in Hin.
    match type of Hin with
    | context [fold_left sync_tool_block calls (?front, n')] =>
        destruct (sync_tool_fold calls front n') as (tool_blocks & n'' & Hfold & Hall);
        rewrite Hfold in Hin
    end.
    cbn [ar_content] in Hin.
    assert (Htb : tool_blocks <> [])
      by (intros E; subst; inversion Hall; subst; contradiction).
    match type of Hin with
    | In _ (match ?l with _ => _ end) =>
        destruct l eqn:E;
        [apply app_eq_nil in E; destruct E as [_ E]; contradiction|]
    end.
    rewrite <- E in Hin. apply in_app_or in Hin. destruct Hin as [Hin|Hin].
    + destruct (truthy (get (resp_reasoning oai_resp) [])), (truthy cleaned);
        simpl in Hin; intuition (try discriminate); congruence.
    + pose proof (kept_or_fresh_tool_use Hall _ Hin) as Hb. discriminate.
Qed.

(** X9: when the backend sent no structured tool call and the extractor
    finds no call in the content, the synchronous answer carries the
    backend content verbatim, wrapper tags and surrounding whitespace
    included, after the thinking block if there is reasoning, and maps the
    backend's finish reason. *)
Theorem X9_unsalvaged_content_is_verbatim :
  forall names oai_resp model n content,
    resp_tool_calls oai_resp = [] ->
    resp_content oai_resp = Some content ->
    content <> [] ->
    fst (fst (_extract_tool_calls_from_text content (Some names) n)) = [] ->
    ar_content (_handle_sync names oai_resp model n)
    = (if truthy (get (resp_reasoning oai_resp) [])
       then [Thinking (get (resp_reasoning oai_resp) [])] else [])
      ++ [Text content]
    /\ ar_stop_reason (_handle_sync names oai_resp model n)
       = map_stop_reason (get (resp_finish_reason oai_resp) (str "end_turn")).
Proof.
  intros names oai_resp model n content Ht Hc Hcne Hex.
  assert (Hp : exists n',
             _process_ollama_response names oai_resp n
             = (content, get (resp_reasoning oai_resp) [], [],
                get (resp_finish_reason oai_resp) (str "end_turn"), n')).
  { unfold _process_ollama_response. rewrite Ht, Hc. cbn [get].
    destruct content as [|c content]; [contradiction|].
    destruct names as [|t names]; [eexists; reflexivity|].
    destruct (_extract_tool_calls_from_text (c :: content) (Some (t :: names)) n)
      as [[calls cleaned] n']. cbn [fst] in Hex. subst calls. eexists. reflexivity. }
  destruct Hp as [n' Hp]. unfold _handle_sync. rewrite Hp. cbn [fold_left].
  destruct content as [|c content]; [contradiction|].
  destruct (truthy (get (resp_reasoning oai_resp) [])); split; reflexivity.
Qed.

(** ** The extractor, continued *)

Lemma match_at_needs_lt : forall r s,
  starts_with_lt r = true ->
  match s with [] => True | c :: _ => c <> 60%N end ->
  match_at r s = None.
Proof.
  intros r s Hr Hs. unfold match_at.
  assert (Hlit : forall c l, (c =? 60)%N = true -> startswith (c :: l) s = false).
  { intros c l Hc. apply N.eqb_eq in Hc. subst c.
    destruct s as [|y s]; [reflexivity|]. cbn [startswith].
    destruct (60 =? y)%N eqn:E; [|reflexivity].
    apply N.eqb_eq in E. subst y. contradiction. }
  destruct r as [l| | | | | |r1 r2| | |]; try discriminate.
  - destruct l as [|c l]; [discriminate|]. cbn [rmatch]. rewrite (Hlit c l Hr). reflexivity.
  - destruct r1 as [l| | | | | | | | |]; try discriminate.
    destruct l as [|c l]; [discriminate|]. cbn [rmatch]. rewrite (Hlit c l Hr). reflexivity.
Qed.

Lemma finditer_without_lt : forall r s skip,
  starts_with_lt r = true -> ~ In 60%N s -> finditer_from r s skip = [].
Proof.
  induction s as [|c s IH]; intros skip Hr Hs.
  - simpl. rewrite match_at_needs_lt; [reflexivity | exact Hr | exact I].
  - assert (Hs' : ~ In 60%N s) by (intros H; apply Hs; right; exact H).
    assert (Hc : c <> 60%N) by (intros H; apply Hs; left; exact H).
    simpl. destruct skip as [|k]; [|apply IH; assumption].
    rewrite match_at_needs_lt; [apply IH; assumption | exact Hr | exact Hc].
Qed.

Lemma sub_without_lt : forall r s,
  starts_with_lt r = true -> ~ In 60%N s -> re_sub_empty r s = s.
Proof.
  intros r s Hr. unfold re_sub_empty.
  induction s as [|c s IH]; intros Hs; [reflexivity|].
  assert (Hs' : ~ In 60%N s) by (intros H; apply Hs; right; exact H).
  assert (Hc : c <> 60%N) by (intros H; apply Hs; left; exact H).
  simpl. rewrite match_at_needs_lt; [|exact Hr|exact Hc].
  rewrite IH by exact Hs'. reflexivity.
Qed.

Lemma strip_wrappers_without_lt : forall tags s,
  ~ In 60%N s -> strip_wrappers tags s = s.
Proof.
  intros tags s Hs. unfold strip_wrappers.
  induction tags as [|tag tags IH]; [reflexivity|].
  simpl. rewrite (@sub_without_lt (wrapper_pat tag) s eq_refl Hs). exact IH.
Qed.

(** X10: a text without any [<] holds no markup: whatever the known tool
    names, the extractor returns no call, draws no uuid, and returns the
    text stripped of its surrounding whitespace. *)
Theorem X10_plain_text_has_no_calls : forall text known_tools n,
  ~ In 60%N text ->
  _extract_tool_calls_from_text text known_tools n = ([], strip text, n).
Proof.
  intros text known_tools n Hs. unfold _extract_tool_calls_from_text.
  unfold finditer.
  rewrite (@finditer_without_lt invoke_pat text 0 eq_refl Hs).
  rewrite (@finditer_without_lt qwen_func_pat text 0 eq_refl Hs).
  cbn [fold_left].
  rewrite !(@strip_wrappers_without_lt _ text Hs).
  rewrite (@sub_without_lt (Lit (str "</tool_call>")) text eq_refl Hs).
  rewrite (@sub_without_lt (Lit (str "<tool_call>")) text eq_refl Hs).
  destruct known_tools as [[|t names]|]; try reflexivity.
  rewrite (@finditer_without_lt (simple_pat (t :: names)) text 0 eq_refl Hs).
  cbn [fold_left]. rewrite !(@strip_wrappers_without_lt _ text Hs). reflexivity.
Qed.

Lemma salvage_ok_append : forall n0 calls remaining remaining' n tool_name params,
  salvage_ok n0 (calls, remaining, n) ->
  salvage_ok n0 (calls ++ [salvaged_call n tool_name params], remaining', S n).
Proof.
  intros n0 calls remaining remaining' n tool_name params (Hn & Hids & Hall).
  unfold salvage_ok. rewrite length_app, map_app. simpl length.
  rewrite Nat.add_1_r, seq_S, map_app, <- Hids, <- Hn.
  split; [lia|]. split; [reflexivity|].
  apply Forall_app. split; [exact Hall|].
  constructor; [split; discriminate | constructor].
Qed.

Lemma invoke_step_ok : forall n0 acc m, salvage_ok n0 acc -> salvage_ok n0 (invoke_step acc m).
Proof.
  intros n0 [[calls remaining] n] m H. unfold invoke_step.
  eapply salvage_ok_append. exact H.
Qed.

Lemma qwen_step_ok : forall n0 acc m, salvage_ok n0 acc -> salvage_ok n0 (qwen_step acc m).
Proof.
  intros n0 [[calls remaining] n] m H. unfold qwen_step.
  destruct (collect_params qwen_param_pat strip (group 2 m)); [exact H|].
  eapply salvage_ok_append. exact H.
Qed.

Lemma simple_step_ok : forall n0 acc m, salvage_ok n0 acc -> salvage_ok n0 (simple_step acc m).
Proof.
  intros n0 [[calls remaining] n] m H. unfold simple_step.
  destruct (collect_params inner_pat (fun k => k) (group 2 m)); [exact H|].
  eapply salvage_ok_append. exact H.
Qed.

Lemma fold_salvage_ok : forall (step : extraction -> re_match -> extraction) n0,
  (forall acc m, salvage_ok n0 acc -> salvage_ok n0 (step acc m)) ->
  forall ms acc, salvage_ok n0 acc -> salvage_ok n0 (fold_left step ms acc).
Proof.
  intros step n0 Hstep. induction ms as [|m ms IH]; intros acc H; [exact H|].
  simpl. apply IH. apply Hstep. exact H.
Qed.

Lemma salvage_ok_start : forall n remaining, salvage_ok n ([], remaining, n).
Proof.
  intros n remaining. unfold salvage_ok. simpl.
  split; [lia | split; [reflexivity | constructor]].
Qed.

Lemma lstrip_clean : forall s, clean_head (lstrip s) = true.
Proof.
  induction s as [|c s IH]; [reflexivity|].
  simpl. destruct (isspace c) eqn:E; [exact IH|]. simpl. rewrite E. reflexivity.
Qed.

Lemma lstrip_fixed : forall s, clean_head s = true -> lstrip s = s.
Proof.
  intros [|c s] H; [reflexivity|]. simpl in *.
  destruct (isspace c); [discriminate | reflexivity].
Qed.

Lemma clean_head_front : forall l c,
  l <> [] -> clean_head (l ++ [c]) = true -> clean_head l = true.
Proof. intros [|x l] c Hl H; [contradiction | exact H]. Qed.

Lemma lstrip_keeps_last : forall s,
  clean_head (rev s) = true -> clean_head (rev (lstrip s)) = true.
Proof.
  induction s as [|c s IH]; intros H; [reflexivity|].
  simpl. destruct (isspace c) eqn:E; [|exact H].
  apply IH. simpl in H. destruct s as [|x s]; [reflexivity|].
  apply clean_head_front in H; [exact H|].
  simpl. intros X. apply app_eq_nil in X. destruct X as [_ X]. discriminate.
Qed.

(** [strip] leaves nothing to strip. *)
Lemma strip_strip : forall s, strip (strip s) = strip s.
Proof.
  intros s. unfold strip.
  set (a := lstrip s). set (b := lstrip (rev a)).
  assert (Ha : clean_head a = true) by apply lstrip_clean.
  assert (Hb : clean_head b = true) by apply lstrip_clean.
  assert (Hb' : clean_head (rev b) = true).
  { apply lstrip_keeps_last. rewrite rev_involutive. exact Ha. }
  rewrite (lstrip_fixed (rev b) Hb'), rev_involutive, (lstrip_fixed b Hb).
  reflexivity.
Qed.

(** X11: the extractor draws exactly one uuid per call it returns: the
    calls carry, in order, the ids [call_] followed by the first eight
    characters of the consecutive draws, each with a name and arguments;
    and the cleaned text has no surrounding whitespace left. *)
Theorem X11_extractor_draws_and_ids : forall text known_tools n,
  let '(calls, cleaned, n') := _extract_tool_calls_from_text text known_tools n in
  n' = n + length calls
  /\ map tc_id calls = map call_id (seq n (length calls))
  /\ Forall (fun c => tc_name c <> None /\ tc_arguments c <> None) calls
  /\ strip cleaned = cleaned.
Proof.
  intros text known_tools n. unfold _extract_tool_calls_from_text.
  pose proof (@fold_salvage_ok invoke_step n (@invoke_step_ok n)
                (finditer invoke_pat text) _ (salvage_ok_start n text)) as H1.
  destruct (fold_left invoke_step (finditer invoke_pat text) ([], text, n))
    as [[calls1 rem1] n1].
  destruct calls1 as [|c1 calls1].
  - destruct H1 as [Hn1 _]. simpl in Hn1. rewrite Nat.add_0_r in Hn1. subst n1.
    match goal with
    | |- context [fold_left qwen_step ?ms ([], ?rem, n)] =>
        pose proof (@fold_salvage_ok qwen_step n (@qwen_step_ok n)
                      ms _ (salvage_ok_start n rem)) as H2;
        destruct (fold_left qwen_step ms ([], rem, n)) as [[calls2 rem2] n2]
    end.
    destruct calls2 as [|c2 calls2].
    + destruct H2 as [Hn2 _]. simpl in Hn2. rewrite Nat.add_0_r in Hn2. subst n2.
      destruct known_tools as [[|t names]|].
      * simpl. rewrite Nat.add_0_r, strip_strip. repeat split; constructor.
      * match goal with
        | |- context [fold_left simple_step ?ms ([], ?rem, n)] =>
            pose proof (@fold_salvage_ok simple_step n (@simple_step_ok n)
                          ms _ (salvage_ok_start n rem)) as H3;
            destruct (fold_left simple_step ms ([], rem, n)) as [[calls3 rem3] n3]
        end.
        destruct H3 as (Hn3 & Hids3 & Hall3).
        rewrite strip_strip. repeat split; assumption.
      * simpl. rewrite Nat.add_0_r, strip_strip. repeat split; constructor.
    + destruct H2 as (Hn2 & Hids2 & Hall2).
      rewrite strip_strip. repeat split; assumption.
  - destruct H1 as (Hn1 & Hids1 & Hall1).
    rewrite strip_strip. repeat split; assumption.
Qed.

Lemma invoke_fold_names : forall ms calls remaining n,
  map tc_name (fst (fst (fold_left invoke_step ms (calls, remaining, n))))
  = map tc_name calls ++ map (fun m => Some (group 1 m)) ms.
Proof.
  induction ms as [|m ms IH]; intros calls remaining n.
  - simpl. rewrite app_nil_r. reflexivity.
  - cbn [fold_left]. unfold invoke_step at 2. rewrite IH, map_app, <- app_assoc.
    reflexivity.
Qed.

(** X12: the first grammar wins: when the text holds at least one [invoke]
    element, the extractor returns exactly one call per element, in the
    order of the text and named as the element says, also for an element
    without parameters. *)
Theorem X12_invoke_grammar_first : forall text known_tools n,
  finditer invoke_pat text <> [] ->
  map tc_name (fst (fst (_extract_tool_calls_from_text text known_tools n)))
  = map (fun m => Some (group 1 m)) (finditer invoke_pat text).
Proof.
  intros text known_tools n Hms. unfold _extract_tool_calls_from_text.
  pose proof (invoke_fold_names (finditer invoke_pat text) [] text n) as H.
  destruct (fold_left invoke_step (finditer invoke_pat text) ([], text, n))
    as [[calls1 rem1] n1].
  cbn [fst] in H. simpl in H.
  destruct calls1 as [|c1 calls1].
  - destruct (finditer invoke_pat text); [contradiction | discriminate].
  - cbn [fst]. exact H.
Qed.

Lemma fold_calls_forall :
  forall (Q : tool_call -> Prop) (step : extraction -> re_match -> extraction),
    (forall acc m, Forall Q (fst (fst acc)) -> Forall Q (fst (fst (step acc m)))) ->
    forall ms acc, Forall Q (fst (fst acc)) -> Forall Q (fst (fst (fold_left step ms acc))).
Proof.
  intros Q step Hstep. induction ms as [|m ms IH]; intros acc H; [exact H|].
  simpl. apply IH. apply Hstep. exact H.
Qed.

Lemma dumps_of_params_not_empty : forall (kv : pystr * pystr) params,
  json_dumps (JObject (map (fun kv => (fst kv, JString (snd kv))) (kv :: params)))
  <> str "{}".
Proof.
  intros kv params. cbn [json_dumps map fst snd].
  unfold encode_basestring at 1.
  destruct (map _ (map _ params)); simpl; discriminate.
Qed.

(** X13: only the [invoke] grammar yields a call without parameters: when
    the text holds no [invoke] element, every call the extractor returns
    has at least one parameter, so its arguments are never the empty
    object. *)
Theorem X13_other_grammars_need_parameters : forall text known_tools n,
  finditer invoke_pat text = [] ->
  Forall (fun c => tc_arguments c <> Some (str "{}"))
    (fst (fst (_extract_tool_calls_from_text text known_tools n))).
Proof.
  intros text known_tools n Hms. unfold _extract_tool_calls_from_text.
  rewrite Hms. cbn [fold_left].
  set (Q := fun c => tc_arguments c <> Some (str "{}")).
  assert (Hq : forall acc m, Forall Q (fst (fst acc)) -> Forall Q (fst (fst (qwen_step acc m)))).
  { intros [[calls remaining] k] m H. unfold qwen_step.
    destruct (collect_params qwen_param_pat strip (group 2 m)) as [|kv params] eqn:E;
      [exact H|].
    cbn [fst]. apply Forall_app. split; [exact H|]. constructor; [|constructor].
    unfold Q, salvaged_call. cbn [tc_arguments]. intros X.
    apply (@dumps_of_params_not_empty kv params). congruence. }
  assert (Hs : forall acc m, Forall Q (fst (fst acc)) -> Forall Q (fst (fst (simple_step acc m)))).
  { intros [[calls remaining] k] m H. unfold simple_step.
    destruct (collect_params inner_pat (fun k => k) (group 2 m)) as [|kv params] eqn:E;
      [exact H|].
    cbn [fst]. apply Forall_app. split; [exact H|]. constructor; [|constructor].
    unfold Q, salvaged_call. cbn [tc_arguments]. intros X.
    apply (@dumps_of_params_not_empty kv params). congruence. }
  match goal with
  | |- context [fold_left qwen_step ?ms ?acc] =>
      pose proof (@fold_calls_forall Q qwen_step Hq ms acc (Forall_nil Q)) as H2;
      destruct (fold_left qwen_step ms acc) as [[calls2 rem2] n2]
  end.
  cbn [fst] in H2.
  destruct calls2 as [|c2 calls2]; [|exact H2].
  destruct known_tools as [[|t names]|]; try constructor.
  match goal with
  | |- context [fold_left simple_step ?ms ?acc] =>
      pose proof (@fold_calls_forall Q simple_step Hs ms acc (Forall_nil Q)) as H3;
      destruct (fold_left simple_step ms acc) as [[calls3 rem3] n3]
  end.
  exact H3.
Qed.

(** ** The arguments of a salvaged call decode again *)

Lemma scanstring_escape_char : forall c tail acc,
  scanstring (escape_char c ++ tail) acc = scanstring tail (c :: acc).
Proof.
  intros c tail acc.
  destruct (c <? 32)%N eqn:Hlow.
  - apply N.ltb_lt in Hlow.
    assert (Hc : In c (map N.of_nat (seq 0 32))).
    { replace c with (N.of_nat (N.to_nat c)) by apply N2Nat.id.
      apply in_map. apply in_seq. lia. }
    cbv in Hc.
    repeat (destruct Hc as [<-|Hc];
            [destruct tail as [|b [|v [|l1 [|l2 [|l3 [|l4 rest3]]]]]]; reflexivity|]).
    destruct Hc.
  - unfold escape_char. rewrite Hlow.
    apply N.ltb_ge in Hlow.
    destruct (c =? 34)%N eqn:E34; [apply N.eqb_eq in E34; subst; reflexivity|].
    destruct (c =? 92)%N eqn:E92; [apply N.eqb_eq in E92; subst; reflexivity|].
    assert (E10 : (c =? 10)%N = false) by (apply N.eqb_neq; lia).
    assert (E13 : (c =? 13)%N = false) by (apply N.eqb_neq; lia).
    assert (E9 : (c =? 9)%N = false) by (apply N.eqb_neq; lia).
    assert (E8 : (c =? 8)%N = false) by (apply N.eqb_neq; lia).
    assert (E12 : (c =? 12)%N = false) by (apply N.eqb_neq; lia).
    rewrite E10, E13, E9, E8, E12.
    cbn [app scanstring]. rewrite E34, E92.
    replace (c <? 32)%N with false by (symmetry; apply N.ltb_ge; exact Hlow).
    reflexivity.
Qed.

(** [scanstring] undoes [encode_basestring]. *)
Lemma scanstring_escaped : forall s rest acc,
  scanstring (flat_map escape_char s ++ 34%N :: rest) acc = Some (rev acc ++ s, rest).
Proof.
  induction s as [|c s IH]; intros rest acc.
  - simpl. rewrite app_nil_r. reflexivity.
  - cbn [flat_map]. rewrite <- app_assoc, scanstring_escape_char, IH.
    simpl. rewrite <- app_assoc. reflexivity.
Qed.

Lemma object_members_last : forall f k v rest acc,
  object_members (S (S f))
    (flat_map escape_char k ++ 34%N :: 58%N :: 32%N :: 34%N
       :: flat_map escape_char v ++ 34%N :: 125%N :: rest) acc
  = Scanned (JObject (dict_of_pairs (rev ((k, JString v) :: acc)))) rest.
Proof.
  intros f k v rest acc. cbn [object_members].
  rewrite scanstring_escaped. cbn [rev app skip_ws is_json_ws N.eqb Pos.eqb orb].
  cbn [scan_once N.eqb Pos.eqb]. rewrite scanstring_escaped.
  cbn [rev app skip_ws is_json_ws N.eqb Pos.eqb orb]. reflexivity.
Qed.

Lemma object_members_more : forall f k v tail acc,
  object_members (S (S f))
    (flat_map escape_char k ++ 34%N :: 58%N :: 32%N :: 34%N
       :: flat_map escape_char v ++ 34%N :: 44%N :: 32%N :: 34%N :: tail) acc
  = object_members (S f) tail ((k, JString v) :: acc).
Proof.
  intros f k v tail acc. cbn [object_members].
  rewrite scanstring_escaped. cbn [rev app skip_ws is_json_ws N.eqb Pos.eqb orb].
  cbn [scan_once N.eqb Pos.eqb]. rewrite scanstring_escaped.
  cbn [rev app skip_ws is_json_ws N.eqb Pos.eqb orb]. reflexivity.
Qed.

Lemma object_members_params : forall more k v f acc rest,
  length more + 2 <= f ->
  object_members f (members_tail k v more rest) acc
  = Scanned
      (JObject (dict_of_pairs (rev acc ++ map (fun kv => (fst kv, JString (snd kv)))
                                        ((k, v) :: more))))
      rest.
Proof.
  induction more as [|[k' v'] more IH]; intros k v f acc rest Hf.
  - destruct f as [|[|f]]; simpl in Hf; try lia.
    cbn [members_tail]. rewrite object_members_last. reflexivity.
  - destruct f as [|[|f]]; simpl in Hf; try lia.
    cbn [members_tail]. rewrite object_members_more.
    rewrite IH by (simpl; lia).
    cbn [rev map fst snd]. rewrite <- app_assoc. reflexivity.
Qed.

Lemma members_tail_length : forall more k v rest,
  length more < length (members_tail k v more rest).
Proof.
  induction more as [|[k' v'] more IH]; intros k v rest; cbn [members_tail].
  - rewrite length_app. simpl. lia.
  - rewrite length_app. simpl. rewrite length_app. simpl.
    specialize (IH k' v' rest). lia.
Qed.

Lemma join_two : forall sep p q l, join sep (p :: q :: l) = p ++ sep ++ join sep (q :: l).
Proof. reflexivity. Qed.

Lemma join_members : forall more k v rest,
  join (str ", ")
    (map (fun kv => encode_basestring (fst kv) ++ str ": " ++ json_dumps (snd kv))
       (map (fun kv : pystr * pystr => (fst kv, JString (snd kv))) ((k, v) :: more)))
  ++ 125%N :: rest
  = 34%N :: members_tail k v more rest.
Proof.
  induction more as [|[k' v'] more IH]; intros k v rest.
  - cbn [map join fst snd json_dumps members_tail]. unfold encode_basestring.
    change (str ": ") with [58%N; 32%N].
    repeat first [rewrite <- app_assoc | rewrite <- app_comm_cons | progress cbn [app]].
    reflexivity.
  - pose proof (IH k' v' rest) as H. cbn [map] in H.
    cbn [map]. rewrite join_two. cbn [fst snd json_dumps] in *.
    rewrite <- !app_assoc.
    match goal with
    | |- context [join ?sep ?l ++ 125%N :: rest] =>
        replace (join sep l ++ 125%N :: rest)
          with (34%N :: members_tail k' v' more rest) by (symmetry; exact H)
    end.
    cbn [members_tail]. unfold encode_basestring.
    change (str ": ") with [58%N; 32%N]. change (str ", ") with [44%N; 32%N].
    repeat first [rewrite <- app_assoc | rewrite <- app_comm_cons | progress cbn [app]].
    reflexivity.
Qed.

Lemma dumps_params : forall k v more,
  json_dumps (params_json ((k, v) :: more)) = 123%N :: 34%N :: members_tail k v more [].
Proof.
  intros k v more. unfold params_json. cbn [json_dumps].
  change (str "}") with [125%N]. change (str "{") with [123%N].
  cbn [app]. f_equal. apply join_members.
Qed.

Lemma pystr_eqb_eq : forall a b, pystr_eqb a b = true <-> a = b.
Proof.
  induction a as [|x a IH]; intros [|y b]; simpl; split; intros H;
    try discriminate; try reflexivity.
  - apply andb_prop in H. destruct H as [Hxy Hab].
    apply N.eqb_eq in Hxy. apply IH in Hab. subst. reflexivity.
  - injection H as -> ->. rewrite N.eqb_refl. apply IH. reflexivity.
Qed.

Lemma dict_set_keys : forall (V : Type) (d : list (pystr * V)) k v,
  (In k (map fst d) -> map fst (dict_set d k v) = map fst d)
  /\ (~ In k (map fst d) -> dict_set d k v = d ++ [(k, v)]).
Proof.
  induction d as [|[k' v'] d IH]; intros k v; simpl.
  - split; [intros [] | reflexivity].
  - destruct (pystr_eqb k' k) eqn:E.
    + apply pystr_eqb_eq in E. subst k'. split; [reflexivity|].
      intros H. exfalso. apply H. left. reflexivity.
    + assert (Hne : k' <> k) by (intros X; apply pystr_eqb_eq in X; congruence).
      destruct (IH k v) as [IHin IHout]. split.
      * intros [X|X]; [contradiction|]. simpl. rewrite IHin by exact X. reflexivity.
      * intros X. rewrite IHout; [reflexivity|]. intros Y. apply X. right. exact Y.
Qed.

Lemma dict_set_nodup : forall (V : Type) (d : list (pystr * V)) k v,
  NoDup (map fst d) -> NoDup (map fst (dict_set d k v)).
Proof.
  intros V d k v H. destruct (dict_set_keys d k v) as [Hin Hout].
  destruct (in_dec (list_eq_dec N.eq_dec) k (map fst d)) as [X|X].
  - rewrite Hin by exact X. exact H.
  - rewrite Hout by exact X. rewrite map_app. simpl.
    apply NoDup_app; [exact H | constructor; [intros [] | constructor] |].
    intros x Hx [<-|[]]. exact (X Hx).
Qed.

Lemma dict_of_pairs_fold : forall (V : Type) (l acc : list (pystr * V)),
  NoDup (map fst (acc ++ l)) ->
  fold_left (fun d kv => dict_set d (fst kv) (snd kv)) l acc = acc ++ l.
Proof.
  induction l as [|[k v] l IH]; intros acc H; simpl.
  - rewrite app_nil_r. reflexivity.
  - assert (Hk : ~ In k (map fst acc)).
    { rewrite map_app in H. simpl in H. apply NoDup_remove_2 in H.
      intros X. apply H. apply in_or_app. left. exact X. }
    rewrite (proj2 (dict_set_keys acc k v) Hk).
    rewrite IH; rewrite <- app_assoc; [reflexivity | exact H].
Qed.

(** A dict read back from its own items is that dict. *)
Lemma dict_of_pairs_nodup : forall (V : Type) (l : list (pystr * V)),
  NoDup (map fst l) -> dict_of_pairs l = l.
Proof. intros V l H. unfold dict_of_pairs. apply (dict_of_pairs_fold l [] H). Qed.

Lemma collect_params_nodup : forall pat key_of params_text,
  NoDup (map fst (collect_params pat key_of params_text)).
Proof.
  intros pat key_of params_text. unfold collect_params.
  assert (H : forall ms (acc : list (pystr * pystr)),
             NoDup (map fst acc) ->
             NoDup (map fst (fold_left
                               (fun params pm =>
                                  dict_set params (key_of (group 1 pm)) (strip (group 2 pm)))
                               ms acc))).
  { induction ms as [|m ms IH]; intros acc Hacc; [exact Hacc|].
    simpl. apply IH. apply dict_set_nodup. exact Hacc. }
  apply H. constructor.
Qed.

(** [json.loads] undoes [json.dumps] on a dict of strings. *)
Lemma json_loads_params : forall params,
  NoDup (map fst params) ->
  json_loads (json_dumps (params_json params)) = Some (params_json params).
Proof.
  intros [|[k v] more] Hnd; [reflexivity|].
  rewrite dumps_params. unfold json_loads.
  change (skip_ws (123%N :: 34%N :: ?t)) with (123%N :: 34%N :: t).
  rewrite Nat.add_1_r. cbn [scan_once N.eqb Pos.eqb skip_ws is_json_ws orb].
  rewrite object_members_params.
  - cbn [rev app skip_ws]. rewrite dict_of_pairs_nodup; [reflexivity|].
    rewrite map_map. exact Hnd.
  - pose proof (members_tail_length more k v []) as H. simpl length. lia.
Qed.

Lemma salvaged_call_dumped : forall n tool_name pat key_of params_text,
  dumped_params (salvaged_call n tool_name (collect_params pat key_of params_text)).
Proof.
  intros. exists (collect_params pat key_of params_text).
  split; [apply collect_params_nodup | reflexivity].
Qed.

Lemma dumped_params_input : forall c,
  dumped_params c ->
  exists params,
    tc_arguments c = Some (json_dumps (params_json params))
    /\ tool_input_of c = params_json params.
Proof.
  intros c (params & Hnd & Hargs). exists params. split; [exact Hargs|].
  unfold tool_input_of. rewrite Hargs. cbn [get].
  rewrite (@json_loads_params params Hnd). reflexivity.
Qed.

(** X14: the arguments of a salvaged call always decode: for every call the
    extractor returns, the arguments are the JSON text of a dict of strings
    and the translators read that dict back from them, never falling back
    to the raw string. *)
Theorem X14_salvaged_arguments_decode : forall text known_tools n,
  Forall
    (fun c =>
       exists params,
         tc_arguments c = Some (json_dumps (params_json params))
         /\ tool_input_of c = params_json params)
    (fst (fst (_extract_tool_calls_from_text text known_tools n))).
Proof.
  intros text known_tools n.
  eapply Forall_impl; [intros c; apply dumped_params_input|].
  unfold _extract_tool_calls_from_text.
  assert (Hi : forall acc m,
             Forall dumped_params (fst (fst acc)) ->
             Forall dumped_params (fst (fst (invoke_step acc m)))).
  { intros [[calls remaining] k] m H. unfold invoke_step. cbn [fst].
    apply Forall_app. split; [exact H|].
    constructor; [apply salvaged_call_dumped | constructor]. }
  assert (Hq : forall acc m,
             Forall dumped_params (fst (fst acc)) ->
             Forall dumped_params (fst (fst (qwen_step acc m)))).
  { intros [[calls remaining] k] m H. unfold qwen_step.
    destruct (collect_params qwen_param_pat strip (group 2 m)) eqn:E; [exact H|].
    rewrite <- E. cbn [fst]. apply Forall_app. split; [exact H|].
    constructor; [apply salvaged_call_dumped | constructor]. }
  assert (Hs : forall acc m,
             Forall dumped_params (fst (fst acc)) ->
             Forall dumped_params (fst (fst (simple_step acc m)))).
  { intros [[calls remaining] k] m H. unfold simple_step.
    destruct (collect_params inner_pat (fun k => k) (group 2 m)) eqn:E; [exact H|].
    rewrite <- E. cbn [fst]. apply Forall_app. split; [exact H|].
    constructor; [apply salvaged_call_dumped | constructor]. }
  pose proof (@fold_calls_forall dumped_params invoke_step Hi
                (finditer invoke_pat text) ([], text, n) (Forall_nil _)) as H1.
  destruct (fold_left invoke_step (finditer invoke_pat text) ([], text, n))
    as [[calls1 rem1] n1].
  cbn [fst] in H1. destruct calls1 as [|c1 calls1]; [|exact H1].
  match goal with
  | |- context [fold_left qwen_step ?ms ?acc] =>
      pose proof (@fold_calls_forall dumped_params qwen_step Hq ms acc (Forall_nil _)) as H2;
      destruct (fold_left qwen_step ms acc) as [[calls2 rem2] n2]
  end.
  cbn [fst] in H2. destruct calls2 as [|c2 calls2]; [|exact H2].
  destruct known_tools as [[|t names]|]; try constructor.
  match goal with
  | |- context [fold_left simple_step ?ms ?acc] =>
      pose proof (@fold_calls_forall dumped_params simple_step Hs ms acc (Forall_nil _)) as H3;
      destruct (fold_left simple_step ms acc) as [[calls3 rem3] n3]
  end.
  exact H3.
Qed.

(** ** The request translator, continued *)

Lemma translate_request_tools : forall req n,
  let forwarded :=
    match req_tools req with
    | Some _ =>
        map to_oai_tool (filter is_function_tool (filter_tools (get (req_tools req) [])))
    | None => []
    end in
  oai_tools (oai_req (translate_request req n))
  = match forwarded with [] => None | _ => Some forwarded end
  /\ oai_tool_choice (oai_req (translate_request req n))
     = match forwarded with [] => None | _ => Some (str "auto") end
  /\ current_tool_names (translate_request req n)
     = tool_names (filter_tools (get (req_tools req) [])).
Proof.
  intros req n. unfold translate_request.
  destruct (fold_left flatten_message _ _) as [oai_msgs n'].
  repeat split; reflexivity.
Qed.

Lemma filter_tools_allowed : forall tools_list,
  Forall (fun t => exists allowed,
                     ALLOWED_TOOLS = Some allowed
                     /\ mem (get (tool_name t) []) allowed = true)
         (filter_tools tools_list).
Proof.
  intros tools_list. unfold filter_tools.
  destruct ALLOWED_TOOLS as [allowed|] eqn:Hallowed; [|discriminate Hallowed].
  apply Forall_forall. intros t Hin. apply filter_In in Hin.
  exists allowed. split; [reflexivity | apply Hin].
Qed.

(** X15: the tools forwarded to the backend are never an empty list, come
    with [tool_choice = 'auto'] and only then, all bear a name of the
    allow-list, and are among the names the function-calling directive and
    the extractor are given. *)
Theorem X15_forwarded_tools_allowed : forall req n,
  match oai_tools (oai_req (translate_request req n)) with
  | Some tools =>
      tools <> []
      /\ oai_tool_choice (oai_req (translate_request req n)) = Some (str "auto")
      /\ has_tools req = true
      /\ Forall (fun t =>
                   (exists allowed,
                      ALLOWED_TOOLS = Some allowed /\ mem (fn_name t) allowed = true)
                   /\ In (fn_name t) (current_tool_names (translate_request req n)))
                tools
  | None => oai_tool_choice (oai_req (translate_request req n)) = None
  end.
Proof.
  intros req n.
  destruct (translate_request_tools req n) as (Htools & Hchoice & Hnames).
  cbv zeta in Htools, Hchoice. rewrite Htools, Hchoice, Hnames. unfold has_tools.
  destruct (req_tools req) as [tools_list|]; [|reflexivity].
  cbn [get].
  pose proof (filter_tools_allowed tools_list) as Hallowed.
  destruct (map to_oai_tool (filter is_function_tool (filter_tools tools_list)))
    as [|t ts] eqn:Hmap; [reflexivity|].
  split; [discriminate|]. split; [reflexivity|]. split.
  - destruct (filter_tools tools_list); [discriminate Hmap | reflexivity].
  - rewrite <- Hmap. apply Forall_forall. intros o Ho.
    apply in_map_iff in Ho. destruct Ho as (t0 & <- & Hin).
    apply filter_In in Hin. destruct Hin as [Hin _].
    split.
    + rewrite Forall_forall in Hallowed. exact (Hallowed t0 Hin).
    + unfold tool_names. apply in_map_iff. exists t0. split; [reflexivity | exact Hin].
Qed.


Lemma truncate_system_prefix : forall sys_text,
  firstn (Nat.min SYSTEM_PROMPT_MAX_CHARS (length sys_text)) (truncate_system sys_text)
  = firstn SYSTEM_PROMPT_MAX_CHARS sys_text
  /\ length (truncate_system sys_text) <= SYSTEM_PROMPT_MAX_CHARS + length truncation_suffix
  /\ (length sys_text <= SYSTEM_PROMPT_MAX_CHARS -> truncate_system sys_text = sys_text).
Proof.
  intros sys_text. unfold truncate_system.
  destruct (SYSTEM_PROMPT_MAX_CHARS <? length sys_text) eqn:Hlong.
  - apply Nat.ltb_lt in Hlong. rewrite Nat.min_l by lia. repeat split.
    + rewrite firstn_app, firstn_firstn, Nat.min_id, length_firstn, Nat.min_l by lia.
      rewrite Nat.sub_diag. cbn [firstn]. apply app_nil_r.
    + rewrite length_app, length_firstn. lia.
    + lia.
  - apply Nat.ltb_ge in Hlong. rewrite Nat.min_r by lia. repeat split.
    + rewrite firstn_all. symmetry. apply firstn_all2. exact Hlong.
    + lia.
Qed.

(** X17: the forwarded system message starts with the first 4000
    characters of the prompt (all of it when it is shorter); without tools
    it is the prompt itself up to 4000 characters, boundary included, and
    never longer than 4000 characters plus the truncation suffix; with
    tools it ends with the function-calling directive. *)
Theorem X17_system_prompt_bounded : forall req n system,
  req_system req = Some system ->
  system_truthy system = true ->
  exists text rest,
    oai_messages (oai_req (translate_request req n))
    = OaiMessage (str "system") text :: rest
    /\ firstn (Nat.min 4000 (length (concat_system system))) text
       = firstn 4000 (concat_system system)
    /\ if has_tools req
       then exists front,
              text = front ++ fc_hint (current_tool_names (translate_request req n))
       else length text <= 4000 + length truncation_suffix
            /\ (length (concat_system system) <= 4000 -> text = concat_system system).
Proof.
  intros req n system Hsys Htruthy.
  destruct (translate_request_system req n Hsys Htruthy) as [rest Hmsgs].
  destruct (translate_request_tools req n) as (_ & _ & Hnames).
  destruct (truncate_system_prefix (concat_system system)) as (Hprefix & Hbound & Hshort).
  change SYSTEM_PROMPT_MAX_CHARS with 4000 in Hprefix, Hbound, Hshort.
  eexists. exists rest. split; [exact Hmsgs|].
  unfold forwarded_system. rewrite Hnames.
  destruct (has_tools req).
  - split.
    + rewrite firstn_app.
      assert (Hle : Nat.min 4000 (length (concat_system system))
                    <= length (truncate_system (concat_system system))).
      { unfold truncate_system.
        destruct (SYSTEM_PROMPT_MAX_CHARS <? _); [rewrite length_app|]; 
          try rewrite length_firstn; unfold SYSTEM_PROMPT_MAX_CHARS; lia. }
      replace (Nat.min 4000 (length (concat_system system))
               - length (truncate_system (concat_system system))) with 0 by lia.
      cbn [firstn]. rewrite app_nil_r. exact Hprefix.
    + eexists. reflexivity.
  - split; [exact Hprefix|]. split; [exact Hbound | exact Hshort].
Qed.

Lemma flatten_blocks_parts : forall blocks p n,
  text_parts (fst (fold_left flatten_block blocks (p, n)))
  = text_parts p ++ flat_map block_texts blocks
  /\ tool_results (fst (fold_left flatten_block blocks (p, n)))
     = tool_results p ++ flat_map block_results blocks
  /\ map tc_name (tool_calls_out (fst (fold_left flatten_block blocks (p, n))))
     = map tc_name (tool_calls_out p) ++ flat_map block_use_names blocks
  /\ snd (fold_left flatten_block blocks (p, n))
     = n + length (flat_map block_use_names blocks).
Proof.
  induction blocks as [|b blocks IH]; intros p n.
  - cbn. rewrite !app_nil_r. repeat split; lia.
  - change (fold_left flatten_block (b :: blocks) (p, n))
      with (fold_left flatten_block blocks (flatten_block (p, n) b)).
    destruct (flatten_block (p, n) b) as [p1 n1] eqn:Hstep.
    destruct (IH p1 n1) as (Ht & Hr & Hc & Hn).
    rewrite Ht, Hr, Hc, Hn.
    destruct b as [text| |id name input|tool_use_id content|];
      cbn in Hstep; injection Hstep as <- <-; cbn [text_parts tool_results tool_calls_out
        flat_map block_texts block_results block_use_names app length];
      rewrite ?map_app, <- ?app_assoc; cbn [map app tc_name];
      repeat split; lia.
Qed.

(** X18: a message with at least one [tool_result] block is forwarded as
    exactly its tool results, in order, as standalone tool messages; its
    role, its text and its [tool_use] blocks are dropped. *)
Theorem X18_tool_results_stand_alone : forall msg out n blocks,
  msg_content msg = Some (ContentBlocks blocks) ->
  flat_map block_results blocks <> [] ->
  fst (flatten_message (out, n) msg) = out ++ flat_map block_results blocks.
Proof.
  intros msg out n blocks Hcontent Hresults. unfold flatten_message.
  rewrite Hcontent. cbn [get].
  match goal with
  | |- context [fold_left flatten_block blocks (?p, n)] =>
      destruct (flatten_blocks_parts blocks p n) as (_ & Hr & _ & _);
      destruct (fold_left flatten_block blocks (p, n)) as [p' n']
  end.
  cbn [fst tool_results app] in Hr. rewrite Hr.
  destruct (flat_map block_results blocks); [contradiction | reflexivity].
Qed.

(** X19: a message of blocks without a [tool_result] is forwarded as exactly
    one message: with a [tool_use] block, an assistant message that carries
    one call per [tool_use] block, in order, and the newline-joined text or
    no content at all; otherwise a message of the sender's role with the
    newline-joined text.  Thinking blocks and blocks of unknown type leave
    no trace. *)
Theorem X19_one_message_without_results : forall msg out n blocks,
  msg_content msg = Some (ContentBlocks blocks) ->
  flat_map block_results blocks = [] ->
  exists m,
    flatten_message (out, n) msg
    = (out ++ [m], n + length (flat_map block_use_names blocks))
    /\ match m with
       | OaiMessage role text =>
           flat_map block_use_names blocks = []
           /\ role = get (msg_role msg) (str "user")
           /\ text = join [LF] (flat_map block_texts blocks)
       | OaiAssistantCalls content calls =>
           flat_map block_use_names blocks <> []
           /\ map tc_name calls = flat_map block_use_names blocks
           /\ content = match flat_map block_texts blocks with
                        | [] => None
                        | texts => Some (join [LF] texts)
                        end
       | OaiToolMessage _ _ => False
       end.
Proof.
  intros msg out n blocks Hcontent Hresults. unfold flatten_message.
  rewrite Hcontent. cbn [get].
  match goal with
  | |- context [fold_left flatten_block blocks (?p, n)] =>
      destruct (flatten_blocks_parts blocks p n) as (Ht & Hr & Hc & Hn);
      destruct (fold_left flatten_block blocks (p, n)) as [p' n']
  end.
  cbn [fst snd text_parts tool_results tool_calls_out app map] in Ht, Hr, Hc, Hn.
  rewrite Hresults in Hr. rewrite Hr. subst n'.
  destruct (tool_calls_out p') as [|c calls] eqn:Hcalls.
  - eexists. split; [reflexivity|]. cbn in Hc.
    rewrite Ht. repeat split. symmetry. exact Hc.
  - eexists. split; [reflexivity|].
    rewrite Ht. split; [rewrite <- Hc; discriminate|].
    split; [exact Hc|]. destruct (flat_map block_texts blocks); reflexivity.
Qed.

(** ** The token estimate *)

Lemma fold_left_add : forall (A : Type) (f : A -> nat) l a,
  fold_left (fun t b => t + f b) l a = a + list_sum (map f l).
Proof.
  induction l as [|x l IH]; intros a; simpl; [lia|]. rewrite IH. lia.
Qed.

Lemma list_sum_flat_map : forall (A : Type) (f : pystr -> nat) (g : A -> list pystr) l,
  list_sum (map f (flat_map g l)) = list_sum (map (fun x => list_sum (map f (g x))) l).
Proof.
  induction l as [|x l IH]; [reflexivity|].
  simpl. rewrite map_app, list_sum_app, IH. reflexivity.
Qed.

Lemma block_tokens_texts : forall b,
  block_tokens b = list_sum (map (fun t : pystr => length t / 4) (block_texts b)).
Proof. intros [text| |id name input|id content|]; simpl; lia. Qed.

Lemma message_tokens_texts : forall msg total,
  message_tokens total msg
  = total + list_sum (map (fun t : pystr => length t / 4) (message_texts msg)).
Proof.
  intros msg total. unfold message_tokens, message_texts.
  destruct (get (msg_content msg) (ContentText [])) as [text|blocks].
  - simpl. lia.
  - rewrite fold_left_add, list_sum_flat_map. f_equal. f_equal.
    apply map_ext. intros b. apply block_tokens_texts.
Qed.

Lemma messages_tokens_texts : forall messages total,
  fold_left message_tokens messages total
  = total + list_sum (map (fun t : pystr => length t / 4) (flat_map message_texts messages)).
Proof.
  induction messages as [|msg messages IH]; intros total; [simpl; lia|].
  cbn [fold_left flat_map].
  rewrite IH, message_tokens_texts, map_app, list_sum_app. lia.
Qed.

Lemma system_tokens_texts : forall system total,
  system_tokens total system
  = total + list_sum (map (fun t : pystr => length t / 4) (system_texts system)).
Proof.
  intros [[text|blocks]|] total; unfold system_tokens, system_texts.
  - simpl system_truthy. destruct (truthy text); simpl; lia.
  - destruct blocks as [|b blocks]; [simpl; lia|].
    cbn [system_truthy]. rewrite fold_left_add, map_map. reflexivity.
  - simpl. lia.
Qed.

Lemma quarters_bound : forall texts : list pystr,
  4 * list_sum (map (fun t : pystr => length t / 4) texts) <= length (concat texts)
  /\ length (concat texts)
     <= 4 * list_sum (map (fun t : pystr => length t / 4) texts) + 3 * length texts.
Proof.
  induction texts as [|t texts [IHl IHu]]; [simpl; lia|].
  cbn [map concat length]. rewrite length_app.
  change (list_sum (?x :: ?l)) with (x + list_sum l).
  pose proof (Nat.div_mod_eq (length t) 4) as Hdiv.
  pose proof (Nat.mod_upper_bound (length t) 4) as Hmod.
  lia.
Qed.

(** X20: the token estimate is the sum, over the text blocks and string
    contents of the messages and the blocks of the system prompt, of a
    quarter of the length rounded down; tool blocks, thinking blocks and
    roles do not count.  Four times the estimate never exceeds the
    characters measured, and falls short of them by at most three per
    text. *)
Theorem X20_token_estimate : forall req,
  _handle_count_tokens req
  = list_sum (map (fun t : pystr => length t / 4) (counted_texts req))
  /\ 4 * _handle_count_tokens req <= length (concat (counted_texts req))
  /\ length (concat (counted_texts req))
     <= 4 * _handle_count_tokens req + 3 * length (counted_texts req).
Proof.
  intros req.
  assert (H : _handle_count_tokens req
              = list_sum (map (fun t : pystr => length t / 4) (counted_texts req))).
  { unfold _handle_count_tokens, counted_texts.
    rewrite system_tokens_texts, messages_tokens_texts, map_app, list_sum_app.
    reflexivity. }
  rewrite H. split; [reflexivity|]. apply quarters_bound.
Qed.

(** ** The wire format *)

















End Runtime.

(** * Worked instances *)

(** A uuid supply and a Unicode table to run the model on. *)
Definition sample_uuid4_hex (n : nat) : pystr :=
  repeat (hex_digit (N.of_nat n mod 16)) 32.

Definition ascii_only (c : N) : bool := false.

Definition bash_tool : tool :=
  {| tool_name := Some (str "Bash");
     tool_type := None;
     tool_description := Some (str "Run a shell command");
     tool_input_schema := None |}.

Definition task_tool : tool :=
  {| tool_name := Some (str "Task");
     tool_type := None;
     tool_description := Some (str "Launch an agent");
     tool_input_schema := None |}.

Definition long_system : system_prompt := SystemText (repeat 97%N 6000).

(** A streaming request with a 6000-character system prompt and the given
    tools. *)
Definition sample_request (tools : option (list tool)) : anthropic_request :=
  {| req_model := None;
     req_messages :=
       Some [{| msg_role := Some (str "user");
                msg_content := Some (ContentText (str "list the files")) |}];
     req_system := Some long_system;
     req_max_tokens := Some 32000%Z;
     req_temperature := None;
     req_stream := Some true;
     req_tools := tools |}.

Definition bash_call (id : option pystr) : tool_call :=
  {| tc_id := id;
     tc_name := Some (str "Bash");
     tc_arguments := Some (strq "{'command':'ls'}") |}.


Definition sample_response (reasoning : option pystr) (tool_calls : list tool_call)
    (finish_reason : option pystr) : oai_response :=
  {| resp_content := None;
     resp_reasoning := reasoning;
     resp_tool_calls := tool_calls;
     resp_finish_reason := finish_reason;
     resp_prompt_tokens := Some 12%Z;
     resp_completion_tokens := Some 7%Z |}.



Lemma C3_witness :
  let oai_resp := sample_response None [] (Some (str "stop")) in
  get (resp_content oai_resp) [] = []
  /\ get (resp_reasoning oai_resp) [] = []
  /\ resp_tool_calls oai_resp = []
  /\ ar_content (_handle_sync sample_uuid4_hex ascii_only [str "Bash"] oai_resp (str "m") 0)
     = [Text []]
  /\ received_blocks
       (_handle_sync_as_sse sample_uuid4_hex ascii_only [str "Bash"] oai_resp (str "m") 0)
     = [Text (str "(empty response)")].
Proof.
  intros oai_resp.
  split; [reflexivity|]. split; [reflexivity|]. split; [reflexivity|].
  pose proof (@C3_empty_response_one_block sample_uuid4_hex ascii_only [str "Bash"]
                oai_resp (str "m") 0 eq_refl eq_refl eq_refl) as (Hsync & _ & Hsse).
  split; [exact Hsync | exact Hsse].
Defined.

(** The claim of C3 as it stands fails on the pseudo-stream: the one block
    the client assembles carries the placeholder, not the empty string. *)
Lemma C3_counterexample :
  let oai_resp := sample_response None [] (Some (str "stop")) in
  get (resp_content oai_resp) [] = []
  /\ get (resp_reasoning oai_resp) [] = []
  /\ resp_tool_calls oai_resp = []
  /\ _handle_sync_as_sse sample_uuid4_hex ascii_only [] oai_resp (str "m") 0
     = [message_start (fresh_msg sample_uuid4_hex 0) (str "m") 12;
        content_block_start 0 (Text []);
        content_block_delta 0 (text_delta (str "(empty response)"));
        content_block_stop 0;
        message_delta (str "end_turn") 7;
        message_stop]
  /\ received_blocks
       (_handle_sync_as_sse sample_uuid4_hex ascii_only [] oai_resp (str "m") 0)
     <> [Text []].
Proof.
  intros oai_resp. repeat split; try (vm_compute; reflexivity).
  vm_compute. discriminate.
Qed.

Lemma C4_witness :
  let oai_resp := sample_response None [bash_call None] (Some (str "tool_calls")) in
  get (resp_content oai_resp) [] = []
  /\ get (resp_reasoning oai_resp) [] = []
  /\ resp_tool_calls oai_resp = [bash_call None]
  /\ resp_finish_reason oai_resp = Some (str "tool_calls")
  /\ exists tool_use_id,
       ar_content (_handle_sync sample_uuid4_hex ascii_only [str "Bash"] oai_resp (str "m") 0)
       = [ToolUse tool_use_id (str "Bash")
            (JObject [(str "command", JString (str "ls"))])]
       /\ startswith (str "toolu_") tool_use_id = true
       /\ ar_stop_reason
            (_handle_sync sample_uuid4_hex ascii_only [str "Bash"] oai_resp (str "m") 0)
          = str "tool_use".
Proof.
  intros oai_resp.
  split; [reflexivity|]. split; [reflexivity|]. split; [reflexivity|].
  split; [reflexivity|].
  exact (@C4_bash_round_trip sample_uuid4_hex ascii_only [str "Bash"] oai_resp (str "m") 0
           None eq_refl eq_refl eq_refl eq_refl).
Defined.

(** The claim of C4 as it stands fails: with the same tool call and the
    finish reason [stop] the stop reason is [end_turn], and with a reasoning
    text the content has a thinking block before the [tool_use] block. *)
Lemma C4_counterexample :
  let stopped := sample_response None [bash_call None] (Some (str "stop")) in
  let reasoned :=
    sample_response (Some (str "hm")) [bash_call None] (Some (str "tool_calls")) in
  get (resp_content stopped) [] = []
  /\ resp_tool_calls stopped = [bash_call None]
  /\ ar_stop_reason
       (_handle_sync sample_uuid4_hex ascii_only [str "Bash"] stopped (str "m") 0)
     = str "end_turn"
  /\ get (resp_content reasoned) [] = []
  /\ resp_tool_calls reasoned = [bash_call None]
  /\ ar_content
       (_handle_sync sample_uuid4_hex ascii_only [str "Bash"] reasoned (str "m") 0)
     = [Thinking (str "hm");
        ToolUse (fresh_toolu sample_uuid4_hex 0) (str "Bash")
          (JObject [(str "command", JString (str "ls"))])].
Proof.
  intros stopped reasoned. repeat split; vm_compute; reflexivity.
Qed.


Lemma C6_witness :
  req_max_tokens (sample_request None) = Some 32000%Z
  /\ oai_max_tokens (oai_req (translate_request sample_uuid4_hex (sample_request None) 0))
     = Z.min 32000 MAX_TOKENS_CAP.
Proof.
  split; [reflexivity|].
  exact (@C6_max_tokens_clamped sample_uuid4_hex (sample_request None) 0 32000%Z eq_refl).
Defined.

Lemma C7_witness :
  let req := sample_request (Some [task_tool]) in
  req_system req = Some long_system
  /\ length (concat_system long_system) = 6000
  /\ exists text rest,
       oai_messages (oai_req (translate_request sample_uuid4_hex req 0))
       = OaiMessage (str "system") text :: rest
       /\ if has_tools req
          then text = firstn 4000 (concat_system long_system) ++ truncation_suffix
                      ++ fc_hint (tool_names (filter_tools (get (req_tools req) [])))
          else text = firstn 4000 (concat_system long_system) ++ truncation_suffix
               /\ length text = 4000 + length truncation_suffix.
Proof.
  intros req.
  assert (Hlen : length (concat_system long_system) = 6000)
    by (vm_compute; reflexivity).
  split; [reflexivity|]. split; [exact Hlen|].
  exact (@C7_system_prompt_truncated sample_uuid4_hex req 0 long_system eq_refl Hlen).
Defined.

(** The claim of C7 as it stands fails when a tool remains: the forwarded
    text is longer than the first 4000 characters and the suffix, and it
    ends in the function-calling directive. *)
Lemma C7_counterexample :
  let req := sample_request (Some [bash_tool]) in
  req_system req = Some long_system
  /\ length (concat_system long_system) = 6000
  /\ exists text rest,
       oai_messages (oai_req (translate_request sample_uuid4_hex req 0))
       = OaiMessage (str "system") text :: rest
       /\ text = repeat 97%N 4000 ++ truncation_suffix ++ fc_hint [str "Bash"]
       /\ (length text =? 4000 + length truncation_suffix) = false
       /\ pystr_eqb (skipn (length text - length truncation_suffix) text)
            truncation_suffix = false.
Proof.
  intros req. split; [reflexivity|]. split; [vm_compute; reflexivity|].
  eexists. eexists. split; [vm_compute; reflexivity|].
  split; [vm_compute; reflexivity|].
  split; vm_compute; reflexivity.
Qed.



(** ** Instances of the further properties *)

Definition read_markup : pystr :=
  strq "I will read it. <invoke name='Read'><parameter name='file_path'>/tmp/x</parameter></invoke>".

Definition qwen_markup : pystr :=
  str "<function=Bash><parameter=command>ls</parameter></function>".

(** A backend response that carries text only. *)
Definition text_response (content : pystr) : oai_response :=
  {| resp_content := Some content;
     resp_reasoning := None;
     resp_tool_calls := [];
     resp_finish_reason := Some (str "stop");
     resp_prompt_tokens := Some 12%Z;
     resp_completion_tokens := Some 7%Z |}.

(** A request with a system prompt of exactly 4000 characters and no
    tools. *)
Definition boundary_request : anthropic_request :=
  {| req_model := None;
     req_messages := None;
     req_system := Some (SystemText (repeat 97%N 4000));
     req_max_tokens := None;
     req_temperature := None;
     req_stream := None;
     req_tools := None |}.

Definition result_blocks : list request_block :=
  [ReqText (Some (str "done"));
   ReqToolResult (Some (str "toolu_1")) (Some (ResultBlocks [str "a"; str "b"]));
   ReqToolUse None (Some (str "Bash")) None;
   ReqToolResult None None].

Definition use_blocks : list request_block :=
  [ReqThinking;
   ReqText (Some (str "let me look"));
   ReqToolUse (Some (str "toolu_2")) (Some (str "Bash")) None;
   ReqOther;
   ReqToolUse None None None].

Definition blocks_message (blocks : list request_block) : message :=
  {| msg_role := Some (str "assistant"); msg_content := Some (ContentBlocks blocks) |}.

Lemma X8_witness :
  let names := [str "Read"] in
  let oai_resp := text_response read_markup in
  let salvaged :=
    _extract_tool_calls_from_text sample_uuid4_hex ascii_only read_markup (Some names) 0 in
  resp_tool_calls oai_resp = []
  /\ resp_content oai_resp = Some read_markup
  /\ read_markup <> []
  /\ names <> []
  /\ fst (fst salvaged) <> []
  /\ ar_stop_reason (_handle_sync sample_uuid4_hex ascii_only names oai_resp (str "m") 0)
     = str "tool_use"
  /\ Forall2 (kept_or_fresh sample_uuid4_hex) (fst (fst salvaged))
       (filter is_tool_use
          (ar_content (_handle_sync sample_uuid4_hex ascii_only names oai_resp (str "m") 0)))
  /\ forall text,
       In (Text text)
          (ar_content (_handle_sync sample_uuid4_hex ascii_only names oai_resp (str "m") 0)) ->
       text = snd (fst salvaged).
Proof.
  intros names oai_resp salvaged.
  assert (Hcontent : read_markup <> []) by (vm_compute; discriminate).
  assert (Hnames : names <> []) by discriminate.
  assert (Hcalls : fst (fst salvaged) <> []) by (vm_compute; discriminate).
  assert (Hsalvaged :
            _extract_tool_calls_from_text sample_uuid4_hex ascii_only read_markup
              (Some names) 0
            = (fst (fst salvaged), snd (fst salvaged), snd salvaged))
    by (subst salvaged; destruct (_extract_tool_calls_from_text _ _ _ _ _) as [[? ?] ?];
        reflexivity).
  split; [reflexivity|]. split; [reflexivity|]. split; [exact Hcontent|].
  split; [exact Hnames|]. split; [exact Hcalls|].
  exact (@X8_salvaged_calls_become_tool_use sample_uuid4_hex ascii_only names oai_resp
           (str "m") 0 read_markup _ _ _ eq_refl eq_refl Hcontent Hnames Hsalvaged Hcalls).
Defined.

Lemma X9_witness :
  let content := str "<b>bold</b> text " in
  let oai_resp := text_response content in
  resp_tool_calls oai_resp = []
  /\ resp_content oai_resp = Some content
  /\ content <> []
  /\ fst (fst (_extract_tool_calls_from_text sample_uuid4_hex ascii_only content
                 (Some [str "Read"]) 0)) = []
  /\ ar_content (_handle_sync sample_uuid4_hex ascii_only [str "Read"] oai_resp (str "m") 0)
     = (if truthy (get (resp_reasoning oai_resp) [])
        then [Thinking (get (resp_reasoning oai_resp) [])] else [])
       ++ [Text content]
  /\ ar_stop_reason (_handle_sync sample_uuid4_hex ascii_only [str "Read"] oai_resp (str "m") 0)
     = map_stop_reason (get (resp_finish_reason oai_resp) (str "end_turn")).
Proof.
  intros content oai_resp.
  assert (Hcontent : content <> []) by (vm_compute; discriminate).
  assert (Hnone : fst (fst (_extract_tool_calls_from_text sample_uuid4_hex ascii_only content
                              (Some [str "Read"]) 0)) = [])
    by (vm_compute; reflexivity).
  split; [reflexivity|]. split; [reflexivity|]. split; [exact Hcontent|].
  split; [exact Hnone|].
  exact (@X9_unsalvaged_content_is_verbatim sample_uuid4_hex ascii_only [str "Read"]
           oai_resp (str "m") 0 content eq_refl eq_refl Hcontent Hnone).
Defined.

Lemma X10_witness :
  ~ In 60%N (str " plain text ")
  /\ _extract_tool_calls_from_text sample_uuid4_hex ascii_only (str " plain text ")
       (Some [str "Read"]) 0
     = ([], strip (str " plain text "), 0).
Proof.
  assert (Hlt : ~ In 60%N (str " plain text "))
    by (vm_compute; intuition discriminate).
  split; [exact Hlt|].
  exact (@X10_plain_text_has_no_calls sample_uuid4_hex ascii_only (str " plain text ")
           (Some [str "Read"]) 0 Hlt).
Defined.

Lemma X12_witness :
  finditer invoke_pat read_markup <> []
  /\ map tc_name
       (fst (fst (_extract_tool_calls_from_text sample_uuid4_hex ascii_only read_markup
                    None 0)))
     = map (fun m => Some (group 1 m)) (finditer invoke_pat read_markup).
Proof.
  assert (Hfound : finditer invoke_pat read_markup <> []) by (vm_compute; discriminate).
  split; [exact Hfound|].
  exact (@X12_invoke_grammar_first sample_uuid4_hex ascii_only read_markup None 0 Hfound).
Defined.

Lemma X13_witness :
  finditer invoke_pat qwen_markup = []
  /\ fst (fst (_extract_tool_calls_from_text sample_uuid4_hex ascii_only qwen_markup None 0))
     <> []
  /\ Forall (fun c => tc_arguments c <> Some (str "{}"))
       (fst (fst (_extract_tool_calls_from_text sample_uuid4_hex ascii_only qwen_markup
                    None 0))).
Proof.
  assert (Hnone : finditer invoke_pat qwen_markup = []) by (vm_compute; reflexivity).
  split; [exact Hnone|]. split; [vm_compute; discriminate|].
  exact (@X13_other_grammars_need_parameters sample_uuid4_hex ascii_only qwen_markup
           None 0 Hnone).
Defined.

Lemma X17_witness :
  let system := SystemText (repeat 97%N 4000) in
  req_system boundary_request = Some system
  /\ system_truthy system = true
  /\ exists text rest,
       oai_messages (oai_req (translate_request sample_uuid4_hex boundary_request 0))
       = OaiMessage (str "system") text :: rest
       /\ firstn (Nat.min 4000 (length (concat_system system))) text
          = firstn 4000 (concat_system system)
       /\ if has_tools boundary_request
          then exists front,
                 text = front
                        ++ fc_hint (current_tool_names
                                      (translate_request sample_uuid4_hex boundary_request 0))
          else length text <= 4000 + length truncation_suffix
               /\ (length (concat_system system) <= 4000 -> text = concat_system system).
Proof.
  intros system.
  split; [reflexivity|]. split; [reflexivity|].
  exact (@X17_system_prompt_bounded sample_uuid4_hex boundary_request 0 system
           eq_refl eq_refl).
Defined.

Lemma X18_witness :
  msg_content (blocks_message result_blocks) = Some (ContentBlocks result_blocks)
  /\ flat_map block_results result_blocks <> []
  /\ fst (flatten_message sample_uuid4_hex ([], 0) (blocks_message result_blocks))
     = [] ++ flat_map block_results result_blocks.
Proof.
  assert (Hresults : flat_map block_results result_blocks <> [])
    by (vm_compute; discriminate).
  split; [reflexivity|]. split; [exact Hresults|].
  exact (@X18_tool_results_stand_alone sample_uuid4_hex (blocks_message result_blocks)
           [] 0 result_blocks eq_refl Hresults).
Defined.

Lemma X19_witness :
  msg_content (blocks_message use_blocks) = Some (ContentBlocks use_blocks)
  /\ flat_map block_results use_blocks = []
  /\ exists m,
       flatten_message sample_uuid4_hex ([], 0) (blocks_message use_blocks)
       = ([] ++ [m], 0 + length (flat_map block_use_names use_blocks))
       /\ match m with
          | OaiMessage role text =>
              flat_map block_use_names use_blocks = []
              /\ role = get (msg_role (blocks_message use_blocks)) (str "user")
              /\ text = join [LF] (flat_map block_texts use_blocks)
          | OaiAssistantCalls content calls =>
              flat_map block_use_names use_blocks <> []
              /\ map tc_name calls = flat_map block_use_names use_blocks
              /\ content = match flat_map block_texts use_blocks with
                           | [] => None
                           | texts => Some (join [LF] texts)
                           end
          | OaiToolMessage _ _ => False
          end.
Proof.
  split; [reflexivity|]. split; [reflexivity|].
  exact (@X19_one_message_without_results sample_uuid4_hex (blocks_message use_blocks)
           [] 0 use_blocks eq_refl eq_refl).
Defined.

